(** * MobileOne (kimm/_src/models/mobileone.py)

    A shallow embedding of the MobileOne model constructor and of
    [get_reparameterized_model], and the properties of the architecture
    assembly and of the weight transfer that are proved about them.

    Python integers are [Z]; [range(n)] runs [Z.to_nat n] times.  Keyword
    dictionaries are [gmap string pyval].  Keras variables live in a store
    (a list of tensors addressed by position); constructing a layer
    allocates its variables and [assign] overwrites one in place.  An
    exception leaves the store as it was when it was raised. *)

From Stdlib Require Import ZArith Lia.
From stdpp Require Import base strings list gmap pretty.

(** ** Python values, exceptions, layers *)

Inductive pyval :=
  | PNone
  | PBool (b : bool)
  | PInt (z : Z)
  | PStr (s : string)
  | PInts (zs : list Z).

Definition is_none (v : pyval) : bool :=
  match v with PNone => true | _ => false end.

(** A variable is named by its position in the store. *)
Abbreviation loc := nat.

(** The exceptions that the modelled code can raise.  [ValueError_weights]
    is the [ValueError] of lines 33-40 (the specification's
    [IncompatibleRequest]); [ValueError_shape] is the one of Keras's
    [Variable.assign] when the shapes differ; [LayerError] stands for
    whatever [get_reparameterized_weights] raises; [Unbound] is the read of
    a variable that the store does not hold. *)
Inductive exn :=
  | ValueError_weights (weights : pyval)
  | ValueError_shape (target : loc)
  | KeyError (key : string)
  | TypeError (argument : string)
  | AttributeError (attribute : string)
  | LayerError (kind : string)
  | Unbound (l : loc).

(** The arguments of one [ReparameterizableConv2D(...)] call.  [has_scale]
    and [use_depthwise] are [None] where the call site leaves them to the
    default of the class. *)
Record Conv2DArgs := {
  filters : Z;
  kernel_size : Z;
  strides : Z;
  has_skip : bool;
  has_scale : option bool;
  use_depthwise : option bool;
  branch_size : Z;
  reparameterized : bool;
  activation : string;
  name : string
}.

(** A layer of the functional model.  [RepConv a cin ws rc] is a
    [ReparameterizableConv2D] built with arguments [a] on an input of [cin]
    channels; [ws] are its variables ([layer.weights]) and [rc] the kernel
    and bias of its [reparameterized_conv2d], present in the reparameterized
    state only.  [Plain] is any other layer (input, preprocessing, head). *)
Inductive Layer :=
  | RepConv (a : Conv2DArgs) (in_channels : Z) (ws : list loc)
            (reparameterized_conv2d : option (loc * loc))
  | Plain (layer_name : string) (ws : list loc).

Definition weights (l : Layer) : list loc :=
  match l with RepConv _ _ ws _ => ws | Plain _ ws => ws end.

(** A symbolic tensor: its channel count ([x.shape[channels_axis]]) and the
    chain of layers that produced it. *)
Record KerasTensor := {
  kt_channels : Z;
  kt_history : list Layer
}.

(** A Python [dict] keeps insertion order; storing under a key that is
    present replaces the value in place. *)
Fixpoint dict_set {V} (k : string) (v : V) (d : list (string * V))
  : list (string * V) :=
  match d with
  | [] => [(k, v)]
  | (k', v') :: d' =>
      if String.eqb k k' then (k, v) :: d' else (k', v') :: dict_set k v d'
  end.

(** ** The collaborators that are not part of this file

    Modelled from the spec: the layer class [ReparameterizableConv2D]
    (kimm/_src/layers/reparameterizable_conv2d.py) and [BaseModel]
    (kimm/_src/models/base_model.py) are not available.  They are taken as
    parameters: the tensor type with its shape, the initial values of the
    variables of a layer (freshly initialised or loaded, according to the
    keyword arguments), the fusion [get_reparameterized_weights] of a layer
    from the current values of its variables, the layers in front of the
    stem ([determine_input_tensor], [build_preprocessing]) with the channel
    count of their output, the layers of the head ([build_head]), and the
    dictionary that [BaseModel.get_config] returns for a model built from
    the given input tensor and keyword arguments.  The output of a
    [ReparameterizableConv2D] has [filters] channels.  Of the
    collaborators only the fusion can fail here: a request that the layer
    class or [BaseModel] would refuse is outside the model, so a property
    of the models that are returned is a property of the calls that
    return. *)
Record Backend := {
  tensor : Type;
  tshape : tensor → list Z;
  branch_init : gmap string pyval → Conv2DArgs → Z → list tensor;
  kernel_init : gmap string pyval → Conv2DArgs → Z → tensor;
  bias_init : gmap string pyval → Conv2DArgs → Z → tensor;
  get_reparameterized_weights :
    Conv2DArgs → Z → list tensor → exn + (tensor * tensor);
  input_layers :
    pyval → gmap string pyval → list (string * list tensor) * Z;
  head_layers : gmap string pyval → Z → list (string * list tensor);
  base_config : pyval → gmap string pyval → gmap string pyval
}.

Record Model := {
  m_layers : list Layer;
  m_features : list (string * KerasTensor);
  m_num_blocks : list Z;
  m_num_channels : list Z;
  m_stem_channels : Z;
  m_branch_size : Z;
  m_reparameterized : bool;
  m_base : gmap string pyval
}.

(** ** The store and the monad of construction and transfer *)

Section MobileOne.
Context (B : Backend).

Definition store : Type := list (tensor B).

Definition M (A : Type) : Type := store → (exn + A) * store.

#[global] Instance M_ret : MRet M := λ A a σ, (inr a, σ).

#[global] Instance M_bind : MBind M := λ A1 A2 f m σ,
  match m σ with
  | (inl e, σ') => (inl e, σ')
  | (inr a, σ') => f a σ'
  end.

Definition raise {A} (e : exn) : M A := λ σ, (inl e, σ).

Definition lift {A} (r : exn + A) : M A := λ σ, (r, σ).

Definition alloc (v : tensor B) : M loc :=
  λ σ, (inr (length σ), σ ++ [v]).

Definition alloc_all (vs : list (tensor B)) : M (list loc) :=
  λ σ, (inr (seq (length σ) (length vs)), σ ++ vs).

Definition read (l : loc) : M (tensor B) := λ σ,
  match σ !! l with
  | Some v => (inr v, σ)
  | None => (inl (Unbound l), σ)
  end.

Fixpoint read_all (ls : list loc) : M (list (tensor B)) :=
  match ls with
  | [] => mret []
  | l :: ls' => v ← read l; vs ← read_all ls'; mret (v :: vs)
  end.

(** [variable.assign(value)]: the shapes must agree. *)
Definition assign (l : loc) (v : tensor B) : M unit := λ σ,
  match σ !! l with
  | Some old =>
      if decide (tshape B old = tshape B v)
      then (inr tt, <[l:=v]> σ)
      else (inl (ValueError_shape l), σ)
  | None => (inl (Unbound l), σ)
  end.

(** ** Construction (lines 22-127) *)

(** Modelled from the spec: the class [ReparameterizableConv2D] is not
    available.  [ReparameterizableConv2D(...)(x)] builds the layer on [x],
    which creates its variables (the branches in the training state, the
    kernel and the bias of [reparameterized_conv2d] in the reparameterized
    state), and returns its output, of [filters] channels. *)
Definition ReparameterizableConv2D (kw : gmap string pyval)
    (a : Conv2DArgs) (x : KerasTensor) : M KerasTensor :=
  let cin := kt_channels x in
  layer ← (if reparameterized a
           then k ← alloc (kernel_init B kw a cin);
                b ← alloc (bias_init B kw a cin);
                mret (RepConv a cin [k; b] (Some (k, b)))
           else ws ← alloc_all (branch_init B kw a cin);
                mret (RepConv a cin ws None));
  mret {| kt_channels := filters a; kt_history := kt_history x ++ [layer] |}.

(** Modelled from the spec: [BaseModel] is not available.  Its layers
    (input, preprocessing, head) are built one after the other, each with
    its variables; they keep the channel count. *)
Fixpoint plain_layers (ps : list (string * list (tensor B)))
    (x : KerasTensor) : M KerasTensor :=
  match ps with
  | [] => mret x
  | (nm, vs) :: ps' =>
      ws ← alloc_all vs;
      plain_layers ps'
        {| kt_channels := kt_channels x;
           kt_history := kt_history x ++ [Plain nm ws] |}
  end.

(** Lines 80-112: the loop over [range(n)], with the locals [strides],
    [current_block_idx] and [x] that it updates. *)
Fixpoint blocks (kw : gmap string pyval) (current_stage_idx : nat)
    (c branch_size0 : Z) (reparameterized0 : bool) (iters : nat)
    (strides0 current_block_idx : Z) (x : KerasTensor) : M KerasTensor :=
  match iters with
  | O => mret x
  | S iters' =>
      let strides1 := if (current_block_idx =? 0)%Z then strides0 else 1%Z in
      let input_channels := kt_channels x in
      let has_skip1 := (strides1 =? 1)%Z in
      let has_skip2 := (input_channels =? c)%Z in
      let name1 := "stages_" +:+ pretty current_stage_idx +:+ "_"
                   +:+ pretty current_block_idx in
      let name2 := "stages_" +:+ pretty current_stage_idx +:+ "_"
                   +:+ pretty (current_block_idx + 1)%Z in
      x ← ReparameterizableConv2D kw
            {| filters := input_channels; kernel_size := 3;
               strides := strides1; has_skip := has_skip1;
               has_scale := None; use_depthwise := Some true;
               branch_size := branch_size0;
               reparameterized := reparameterized0;
               activation := "relu"; name := name1 |} x;
      x ← ReparameterizableConv2D kw
            {| filters := c; kernel_size := 1;
               strides := 1; has_skip := has_skip2;
               has_scale := Some false; use_depthwise := Some false;
               branch_size := branch_size0;
               reparameterized := reparameterized0;
               activation := "relu"; name := name2 |} x;
      blocks kw current_stage_idx c branch_size0 reparameterized0 iters'
        strides1 (current_block_idx + 2)%Z x
  end.

(** Lines 73-115: the loop over [enumerate(zip(num_channels, num_blocks))],
    with [current_strides], [x] and [features]. *)
Fixpoint stages (kw : gmap string pyval) (branch_size0 : Z)
    (reparameterized0 : bool) (current_stage_idx : nat)
    (cns : list (Z * Z)) (current_strides : Z) (x : KerasTensor)
    (features : list (string * KerasTensor))
  : M (KerasTensor * list (string * KerasTensor)) :=
  match cns with
  | [] => mret (x, features)
  | (c, n) :: cns' =>
      let strides0 := 2%Z in
      let current_strides := (current_strides * strides0)%Z in
      x ← blocks kw current_stage_idx c branch_size0 reparameterized0
            (Z.to_nat n) strides0 0 x;
      let features :=
        dict_set ("BLOCK" +:+ pretty current_stage_idx +:+ "_S"
                  +:+ pretty current_strides) x features in
      stages kw branch_size0 reparameterized0 (S current_stage_idx) cns'
        current_strides x features
  end.

(** Lines 41-127: everything after the check of the request. *)
Definition assemble (num_blocks num_channels : list Z)
    (stem_channels branch_size0 : Z) (reparameterized0 : bool)
    (input_tensor : pyval) (kw : gmap string pyval) : M Model :=
  x ← plain_layers (input_layers B input_tensor kw).1
        {| kt_channels := (input_layers B input_tensor kw).2;
           kt_history := [] |};
  let features := [] in
  x ← ReparameterizableConv2D kw
        {| filters := stem_channels; kernel_size := 3; strides := 2;
           has_skip := false; has_scale := None; use_depthwise := None;
           branch_size := 1; reparameterized := reparameterized0;
           activation := "relu"; name := "stem" |} x;
  let features := dict_set "STEM_S2" x features in
  '(x, features) ← stages kw branch_size0 reparameterized0 0
                     (zip num_channels num_blocks) 2 x features;
  x ← plain_layers (head_layers B kw (kt_channels x)) x;
  mret {| m_layers := kt_history x; m_features := features;
          m_num_blocks := num_blocks; m_num_channels := num_channels;
          m_stem_channels := stem_channels; m_branch_size := branch_size0;
          m_reparameterized := reparameterized0;
          m_base := base_config B input_tensor kw |}.

(** [MobileOne.__init__]. *)
Definition MobileOne_init (num_blocks num_channels : list Z)
    (stem_channels branch_size0 : Z) (reparameterized0 : bool)
    (input_tensor : pyval) (kw : gmap string pyval) : M Model :=
  match kw !! "weights" with
  | None => raise (KeyError "weights")
  | Some w =>
      if negb (is_none w) && reparameterized0
      then raise (ValueError_weights w)
      else assemble num_blocks num_channels stem_channels branch_size0
             reparameterized0 input_tensor kw
  end.

(** [available_feature_keys] (lines 17-20). *)
Definition available_feature_keys : list string :=
  "STEM_S2"
  :: zip_with (λ (i : nat) (j : Z), "BLOCK" +:+ pretty i +:+ "_S" +:+ pretty j)
       (seq 0 4) [4; 8; 16; 32]%Z.

(** [get_config] (lines 129-140); [m_base] is what [super().get_config()]
    returns. *)
Definition get_config (self : Model) : gmap string pyval :=
  <["reparameterized" := PBool (m_reparameterized self)]>
  (<["branch_size" := PInt (m_branch_size self)]>
  (<["stem_channels" := PInt (m_stem_channels self)]>
  (<["num_channels" := PInts (m_num_channels self)]>
  (<["num_blocks" := PInts (m_num_blocks self)]> (m_base self))))).

(** Line 157, the call of [MobileOne] with the entries of [config] as
    keyword arguments: the keys that name a parameter of [__init__] are
    bound to it and the others are collected in [kwargs].  The parameters
    are typed as they are annotated: a value of another type, which Python
    would pass on unchecked, is outside the model and answered with
    [TypeError]. *)
Definition parameter_names : list string :=
  ["num_blocks"; "num_channels"; "stem_channels"; "branch_size";
   "reparameterized"; "input_tensor"].

Definition kwargs_of (config : gmap string pyval) : gmap string pyval :=
  foldr delete config parameter_names.

Definition required_ints (config : gmap string pyval) (k : string)
  : M (list Z) :=
  match config !! k with
  | Some (PInts zs) => mret zs
  | _ => raise (TypeError k)
  end.

Definition optional_int (config : gmap string pyval) (k : string) (d : Z)
  : M Z :=
  match config !! k with
  | None => mret d
  | Some (PInt z) => mret z
  | Some _ => raise (TypeError k)
  end.

Definition optional_bool (config : gmap string pyval) (k : string)
    (d : bool) : M bool :=
  match config !! k with
  | None => mret d
  | Some (PBool b) => mret b
  | Some _ => raise (TypeError k)
  end.

Definition MobileOne_call (config : gmap string pyval) : M Model :=
  nb ← required_ints config "num_blocks";
  nc ← required_ints config "num_channels";
  sc ← optional_int config "stem_channels" 48;
  bs ← optional_int config "branch_size" 1;
  rep ← optional_bool config "reparameterized" false;
  MobileOne_init nb nc sc bs rep
    (default PNone (config !! "input_tensor")) (kwargs_of config).

(** ** Weight transfer (lines 153-168) *)

(** Lines 164-167: the loop over [zip(layer.weights, rep_layer.weights)]. *)
Fixpoint copy_weights (ps : list (loc * loc)) : M unit :=
  match ps with
  | [] => mret tt
  | (weight, target_weight) :: ps' =>
      v ← read weight;
      assign target_weight v;;
      copy_weights ps'
  end.

(** Lines 159-167, for one pair of layers.  [hasattr(layer,
    "get_reparameterized_weights")] holds of the layers of the class
    [ReparameterizableConv2D]. *)
Definition transfer_layer (layer rep_layer : Layer) : M unit :=
  match layer with
  | RepConv a cin ws _ =>
      vs ← read_all ws;
      '(kernel, bias) ← lift (get_reparameterized_weights B a cin vs);
      match rep_layer with
      | RepConv _ _ _ (Some (k, b)) => assign k kernel;; assign b bias
      | RepConv _ _ _ None => raise (AttributeError "kernel")
      | Plain _ _ => raise (AttributeError "reparameterized_conv2d")
      end
  | Plain _ ws => copy_weights (zip ws (weights rep_layer))
  end.

(** Line 158: the loop over [zip(self.layers, model.layers)]. *)
Fixpoint transfer (ps : list (Layer * Layer)) : M unit :=
  match ps with
  | [] => mret tt
  | (layer, rep_layer) :: ps' =>
      transfer_layer layer rep_layer;;
      transfer ps'
  end.

Definition get_reparameterized_model (self : Model) : M Model :=
  let config := get_config self in
  let config := <["reparameterized" := PBool true]> config in
  let config := <["weights" := PNone]> config in
  model ← MobileOne_call config;
  transfer (zip (m_layers self) (m_layers model));;
  mret model.

End MobileOne.

Arguments raise {B A} e.
Arguments lift {B A} r.

(** ** A small backend, to run the model on concrete requests *)

(** The shape of the kernel of a convolution: the two sides of the window,
    the input channels (one per group for a depthwise convolution) and the
    filters. *)
Definition small_kernel_shape (a : Conv2DArgs) (cin : Z) : list Z :=
  [kernel_size a; kernel_size a;
   if use_depthwise a is Some true then 1%Z else cin; filters a].

(** Modelled from the spec: an instance of the collaborators that are not
    available.  A tensor is a shape with one integer of content.  A layer
    in the training state holds one branch, a kernel and a bias, which
    fusion returns as they are ("branch count of one with no normalization
    and no skip: fusion is a no-op copy"); fusion of a layer that is
    already in the reparameterized state fails ("AlreadyFused").  In front
    of the stem there are the input and a normalization with two
    variables; the head is a pooling and a classifier of 1000 classes;
    [BaseModel.get_config] returns the keyword arguments. *)
Definition small_backend : Backend := {|
  tensor := list Z * Z;
  tshape := fst;
  branch_init := λ _ a cin, [(small_kernel_shape a cin, 1%Z); ([filters a], 2%Z)];
  kernel_init := λ _ a cin, (small_kernel_shape a cin, 0%Z);
  bias_init := λ _ a _, ([filters a], 0%Z);
  get_reparameterized_weights := λ a _ vs,
    if reparameterized a then inl (LayerError "AlreadyFused")
    else match vs with
         | [kernel; bias] => inr (kernel, bias)
         | _ => inl (LayerError "InvalidTopology")
         end;
  input_layers := λ _ _,
    ([("input", []); ("normalization", [([3%Z], 7%Z); ([3%Z], 8%Z)])], 3%Z);
  head_layers := λ _ cin,
    [("avg_pool", []);
     ("classifier", [([cin; 1000%Z], 3%Z); ([1000%Z], 4%Z)])];
  base_config := λ _ kw, kw
|}.

(** ** Vocabulary of the properties *)

(** The reparameterizable units among the layers, each with its arguments
    and the channel count of its input. *)
Definition unit_of (l : Layer) : option (Conv2DArgs * Z) :=
  match l with
  | RepConv a cin _ _ => Some (a, cin)
  | Plain _ _ => None
  end.

Definition units (ls : list Layer) : list (Conv2DArgs * Z) := omap unit_of ls.

(** A layer in the reparameterized state owns exactly the kernel and the
    bias of its fused convolution; a layer in the training state has no
    fused convolution. *)
Definition layer_wf (l : Layer) : Prop :=
  match l with
  | RepConv a _ ws rc =>
      if reparameterized a
      then ∃ k b, ws = [k; b] ∧ rc = Some (k, b)
      else rc = None
  | Plain _ _ => True
  end.

(** The arguments of the two calls of lines 88-98 and 100-111. *)
Definition depthwise_args (i : nat) (idx cin s bs : Z) (rep : bool)
  : Conv2DArgs :=
  {| filters := cin; kernel_size := 3; strides := s;
     has_skip := (s =? 1)%Z; has_scale := None; use_depthwise := Some true;
     branch_size := bs; reparameterized := rep; activation := "relu";
     name := "stages_" +:+ pretty i +:+ "_" +:+ pretty idx |}.

Definition pointwise_args (i : nat) (idx cin c bs : Z) (rep : bool)
  : Conv2DArgs :=
  {| filters := c; kernel_size := 1; strides := 1;
     has_skip := (cin =? c)%Z; has_scale := Some false;
     use_depthwise := Some false;
     branch_size := bs; reparameterized := rep; activation := "relu";
     name := "stages_" +:+ pretty i +:+ "_" +:+ pretty (idx + 1)%Z |}.

Definition stem_args (sc : Z) (rep : bool) : Conv2DArgs :=
  {| filters := sc; kernel_size := 3; strides := 2;
     has_skip := false; has_scale := None; use_depthwise := None;
     branch_size := 1; reparameterized := rep;
     activation := "relu"; name := "stem" |}.

(** The units that the loop [blocks] creates, read off its iterations
    without the store, and the channel count that leaves it. *)
Fixpoint block_units (i : nat) (c bs : Z) (rep : bool) (iters : nat)
    (s idx cin : Z) : list (Conv2DArgs * Z) :=
  match iters with
  | O => []
  | S iters' =>
      let s1 := if (idx =? 0)%Z then s else 1%Z in
      (depthwise_args i idx cin s1 bs rep, cin)
      :: (pointwise_args i idx cin c bs rep, cin)
      :: block_units i c bs rep iters' s1 (idx + 2)%Z c
  end.

Definition block_out (c : Z) (iters : nat) (cin : Z) : Z :=
  match iters with O => cin | S _ => c end.

(** The units that the loop [stages] creates. *)
Fixpoint stage_units (bs : Z) (rep : bool) (i : nat) (cns : list (Z * Z))
    (cin : Z) : list (Conv2DArgs * Z) :=
  match cns with
  | [] => []
  | (c, n) :: cns' =>
      block_units i c bs rep (Z.to_nat n) 2 0 cin
      ++ stage_units bs rep (S i) cns' (block_out c (Z.to_nat n) cin)
  end.

(** What a feature records, for the properties: how many units precede
    the recorded tensor, and its channel count. *)
Definition feature_mark (x : KerasTensor) : nat * Z :=
  (length (units (kt_history x)), kt_channels x).

Fixpoint stage_features (i : nat) (cns : list (Z * Z)) (cur : Z)
    (pos : nat) (cin : Z) (fs : list (string * (nat * Z)))
  : list (string * (nat * Z)) :=
  match cns with
  | [] => fs
  | (c, n) :: cns' =>
      let cur' := (cur * 2)%Z in
      let pos' := pos + 2 * Z.to_nat n in
      let cin' := block_out c (Z.to_nat n) cin in
      stage_features (S i) cns' cur' pos' cin'
        (dict_set ("BLOCK" +:+ pretty i +:+ "_S" +:+ pretty cur')
                  (pos', cin') fs)
  end.

(** The first unit of stage [i] in the sequence of units: the stem and the
    pairs of the stages before it come first. *)
Definition stage_offset (cns : list (Z * Z)) (i : nat) : nat :=
  1 + 2 * sum_list_with (λ cn, Z.to_nat cn.2) (take i cns).

(** Every unit reads as many channels as the unit before it has filters,
    the first one [cin]. *)
Fixpoint chained (cin : Z) (us : list (Conv2DArgs * Z)) : Prop :=
  match us with
  | [] => True
  | (a, c) :: us' => c = cin ∧ chained (filters a) us'
  end.

(** The channel count after the units [us], [cin] when there is none. *)
Definition last_out (cin : Z) (us : list (Conv2DArgs * Z)) : Z :=
  match last us with Some u => filters u.1 | None => cin end.

(** The channel count that enters stage [k]. *)
Fixpoint stage_in (cns : list (Z * Z)) (k : nat) (cin : Z) : Z :=
  match k, cns with
  | S k', (c, n) :: cns' => stage_in cns' k' (block_out c (Z.to_nat n) cin)
  | _, _ => cin
  end.

(** The skip path of a unit is consistent with its shape. *)
Definition skip_valid (u : Conv2DArgs * Z) : Prop :=
  (has_skip u.1 = true → u.2 = filters u.1 ∧ strides u.1 = 1%Z) ∧
  (use_depthwise u.1 = Some true →
     filters u.1 = u.2 ∧ (has_skip u.1 = true ↔ strides u.1 = 1%Z)) ∧
  (use_depthwise u.1 = Some false →
     strides u.1 = 1%Z ∧ (has_skip u.1 = true ↔ u.2 = filters u.1)).

(** The same arguments in the other mode. *)
Definition set_mode (rep : bool) (a : Conv2DArgs) : Conv2DArgs :=
  {| filters := filters a; kernel_size := kernel_size a;
     strides := strides a; has_skip := has_skip a;
     has_scale := has_scale a; use_depthwise := use_depthwise a;
     branch_size := branch_size a; reparameterized := rep;
     activation := activation a; name := name a |}.

(** The dictionary of line 157: the configuration of the source with the
    two entries of lines 155 and 156 replaced. *)
Definition reparameterized_config (self : Model) : gmap string pyval :=
  <["weights" := PNone]>
    (<["reparameterized" := PBool true]> (get_config self)).

Section Runs.
Context (B : Backend).

(** [wp m σ Q]: from [σ] the computation [m] returns, and [Q] holds of
    its result and of the store it leaves. *)
Definition wp {A} (m : M B A) (σ : store B) (Q : A → store B → Prop) : Prop :=
  match m σ with
  | (inr a, σ') => Q a σ'
  | (inl _, _) => False
  end.

(** From [(x, σ)] to [(x', σ')] layers were appended whose units are [us];
    their variables are exactly the ones allocated in between, in order. *)
Definition grows (x : KerasTensor) (σ : store B) (x' : KerasTensor)
    (σ' : store B) (us : list (Conv2DArgs * Z)) : Prop :=
  ∃ L vals,
    kt_history x' = kt_history x ++ L ∧ σ' = σ ++ vals ∧
    concat (weights <$> L) = seq (length σ) (length vals) ∧
    Forall layer_wf L ∧ units L = us.

(** What the transfer has done for the pair of a source layer [l] and a
    target layer [t], between the stores [σ] and [σ']. *)
Definition transferred (σ σ' : store B) (l t : Layer) : Prop :=
  match l with
  | RepConv a cin ws _ =>
      ∃ vs kernel bias k b,
        Forall2 (λ w v, σ !! w = Some v) ws vs ∧
        get_reparameterized_weights B a cin vs = inr (kernel, bias) ∧
        (∃ a' cin' ws', t = RepConv a' cin' ws' (Some (k, b))) ∧
        σ' !! k = Some kernel ∧ σ' !! b = Some bias
  | Plain _ ws =>
      ∀ j w tw, ws !! j = Some w → weights t !! j = Some tw →
        ∃ v, σ !! w = Some v ∧ σ' !! tw = Some v
  end.

Lemma wp_ret {A} (a : A) σ (Q : A → store B → Prop) :
  Q a σ → wp (mret a) σ Q.
Proof. done. Qed.

Lemma wp_bind {A1 A2} (m : M B A1) (f : A1 → M B A2) σ R Q :
  wp m σ R → (∀ a σ', R a σ' → wp (f a) σ' Q) → wp (m ≫= f) σ Q.
Proof.
  unfold wp, mbind, M_bind. destruct (m σ) as [[e|a] σ']; [done|].
  intros HR Hf. by apply Hf.
Qed.

Lemma wp_mono {A} (m : M B A) σ (Q Q' : A → store B → Prop) :
  wp m σ Q → (∀ a σ', Q a σ' → Q' a σ') → wp m σ Q'.
Proof.
  unfold wp. destruct (m σ) as [[e|a] σ']; [done|]. intros HQ H. by apply H.
Qed.

Lemma wp_run {A} (m : M B A) σ (Q : A → store B → Prop) :
  wp m σ Q → ∃ a σ', m σ = (inr a, σ') ∧ Q a σ'.
Proof.
  unfold wp. destruct (m σ) as [[e|a] σ']; [done|]. eauto.
Qed.

Lemma grows_refl x σ : grows x σ x σ [].
Proof.
  exists [], []. by rewrite !app_nil_r.
Qed.

Lemma grows_trans x σ x1 σ1 x2 σ2 us1 us2 :
  grows x σ x1 σ1 us1 → grows x1 σ1 x2 σ2 us2 →
  grows x σ x2 σ2 (us1 ++ us2).
Proof.
  intros (L1 & v1 & Hh1 & -> & Hw1 & Hf1 & <-)
         (L2 & v2 & Hh2 & -> & Hw2 & Hf2 & <-).
  exists (L1 ++ L2), (v1 ++ v2). split_and!.
  - by rewrite Hh2, Hh1, app_assoc.
  - by rewrite app_assoc.
  - rewrite fmap_app, concat_app, Hw1, Hw2, !length_app.
    by rewrite seq_app.
  - by apply Forall_app.
  - unfold units. by rewrite omap_app.
Qed.

Lemma wp_conv kw a x σ :
  wp (ReparameterizableConv2D B kw a x) σ
     (λ x' σ', grows x σ x' σ' [(a, kt_channels x)] ∧
               kt_channels x' = filters a).
Proof.
  unfold wp, ReparameterizableConv2D, mbind, M_bind.
  destruct (reparameterized a) eqn:Hrep; simpl; (split; [|done]).
  - eexists [_], [_; _]. simpl. split_and!; try done.
    + by rewrite <-app_assoc.
    + rewrite length_app. simpl. by rewrite Nat.add_1_r.
    + constructor; [|done]. simpl. rewrite Hrep. eauto.
  - eexists [_], _. simpl. split_and!; try done.
    + by rewrite app_nil_r.
    + constructor; [|done]. simpl. by rewrite Hrep.
Qed.

Lemma wp_plain_layers ps x σ :
  wp (plain_layers B ps x) σ
     (λ x' σ', grows x σ x' σ' [] ∧ kt_channels x' = kt_channels x).
Proof.
  revert x σ. induction ps as [|[nm vs] ps IH]; intros x σ.
  - apply wp_ret. split; [apply grows_refl|done].
  - simpl. eapply wp_bind with
      (R := λ ws σ', ws = seq (length σ) (length vs) ∧ σ' = σ ++ vs); [done|].
    intros ws σ' [-> ->]. eapply wp_mono; [apply IH|].
    intros x' σ'' [Hg Hc]. split; [|done].
    change (@nil (Conv2DArgs * Z)) with (@nil (Conv2DArgs * Z) ++ []).
    eapply grows_trans; [|exact Hg].
    eexists [_], vs. simpl. split_and!; try done.
    + by rewrite app_nil_r.
    + by constructor.
Qed.

Lemma wp_blocks kw i c bs rep iters s idx x σ :
  wp (blocks B kw i c bs rep iters s idx x) σ
     (λ x' σ', grows x σ x' σ' (block_units i c bs rep iters s idx (kt_channels x)) ∧
               kt_channels x' = block_out c iters (kt_channels x)).
Proof.
  revert s idx x σ. induction iters as [|iters IH]; intros s idx x σ.
  - apply wp_ret. split; [apply grows_refl|done].
  - cbn [blocks]. eapply wp_bind; [apply wp_conv|].
    intros x1 σ1 [Hg1 Hc1]. eapply wp_bind; [apply wp_conv|].
    intros x2 σ2 [Hg2 Hc2]. eapply wp_mono; [apply IH|].
    intros x3 σ3 [Hg3 Hc3]. simpl in Hc1, Hc2. split.
    + cbn [block_units].
      rewrite Hc1 in Hg2. rewrite Hc2 in Hg3.
      pose proof (grows_trans _ _ _ _ _ _ _ _ Hg1
                    (grows_trans _ _ _ _ _ _ _ _ Hg2 Hg3)) as Hg.
      exact Hg.
    + rewrite Hc3, Hc2. by destruct iters.
Qed.

Lemma grows_units x σ x' σ' us :
  grows x σ x' σ' us →
  units (kt_history x') = units (kt_history x) ++ us.
Proof.
  intros (L & vals & -> & _ & _ & _ & <-). unfold units. by rewrite omap_app.
Qed.

Lemma dict_set_fmap {V W} (f : V → W) k v (d : list (string * V)) :
  prod_map id f <$> dict_set k v d = dict_set k (f v) (prod_map id f <$> d).
Proof.
  induction d as [|[k' v'] d IH]; [done|]. simpl.
  destruct (String.eqb k k'); [done|]. simpl. f_equal. apply IH.
Qed.

Lemma block_units_length i c bs rep iters s idx cin :
  length (block_units i c bs rep iters s idx cin) = 2 * iters.
Proof.
  revert s idx cin. induction iters as [|iters IH]; intros; [done|].
  cbn [block_units length]. rewrite IH. lia.
Qed.

Lemma wp_stages kw bs rep i cns cur x fs σ :
  wp (stages B kw bs rep i cns cur x fs) σ
     (λ r σ',
        grows x σ r.1 σ' (stage_units bs rep i cns (kt_channels x)) ∧
        prod_map id feature_mark <$> r.2
        = stage_features i cns cur (length (units (kt_history x)))
            (kt_channels x) (prod_map id feature_mark <$> fs)).
Proof.
  revert i cur x fs σ. induction cns as [|[c n] cns IH]; intros i cur x fs σ.
  - apply wp_ret. split; [apply grows_refl|done].
  - cbn [stages]. eapply wp_bind; [apply wp_blocks|].
    intros x1 σ1 [Hg1 Hc1]. eapply wp_mono; [apply IH|].
    intros [x2 fs2] σ2 [Hg2 Hf2]. cbn [fst snd stage_units stage_features] in *.
    split.
    + rewrite Hc1 in Hg2. eapply grows_trans; eauto.
    + rewrite Hf2, dict_set_fmap.
      change (feature_mark x1)
        with (length (units (kt_history x1)), kt_channels x1).
      rewrite (grows_units _ _ _ _ _ Hg1), length_app, block_units_length.
      by rewrite Hc1.
Qed.

(** What [assemble] returns: the variables of the layers are the ones it
    allocates, the units and the features are the planned ones, and the
    attributes are the arguments. *)
Definition assembled (nb nc : list Z) (sc bs : Z) (rep : bool)
    (inp : pyval) (kw : gmap string pyval) (σ : store B) (m : Model)
    (σ' : store B) : Prop :=
  (∃ vals, σ' = σ ++ vals ∧
     concat (weights <$> m_layers m) = seq (length σ) (length vals)) ∧
  Forall layer_wf (m_layers m) ∧
  units (m_layers m)
  = (stem_args sc rep, (input_layers B inp kw).2)
    :: stage_units bs rep 0 (zip nc nb) sc ∧
  prod_map id feature_mark <$> m_features m
  = stage_features 0 (zip nc nb) 2 1 sc [("STEM_S2", (1, sc))] ∧
  m_num_blocks m = nb ∧ m_num_channels m = nc ∧ m_stem_channels m = sc ∧
  m_branch_size m = bs ∧ m_reparameterized m = rep ∧
  m_base m = base_config B inp kw.

Lemma wp_assemble nb nc sc bs rep inp kw σ :
  wp (assemble B nb nc sc bs rep inp kw) σ
     (assembled nb nc sc bs rep inp kw σ).
Proof.
  unfold assemble.
  eapply wp_bind; [apply wp_plain_layers|]. intros x0 σ0 [Hg0 Hc0].
  eapply wp_bind; [apply wp_conv|]. intros x1 σ1 [Hg1 Hc1].
  eapply wp_bind; [apply wp_stages|]. intros [x2 fs2] σ2 [Hg2 Hf2].
  eapply wp_bind; [apply wp_plain_layers|]. intros x3 σ3 [Hg3 Hc3].
  apply wp_ret. simpl in *.
  pose proof (grows_units _ _ _ _ _ Hg0) as Hu0.
  pose proof (grows_units _ _ _ _ _ Hg1) as Hu1. simpl in Hu0.
  pose proof (grows_trans _ _ _ _ _ _ _ _ Hg0
                (grows_trans _ _ _ _ _ _ _ _ Hg1
                   (grows_trans _ _ _ _ _ _ _ _ Hg2 Hg3))) as Hg.
  destruct Hg as (L & vals & Hh & -> & Hw & Hwf & Hu). simpl in Hh.
  rewrite Hh. unfold assembled; simpl. split_and!; try done.
  - by exists vals.
  - rewrite Hu, Hc1, Hc0, app_nil_r. done.
  - rewrite Hf2. unfold feature_mark. rewrite Hu1, Hu0, Hc1. done.
Qed.

Lemma assemble_run nb nc sc bs rep inp kw σ :
  ∃ m σ', assemble B nb nc sc bs rep inp kw σ = (inr m, σ') ∧
          assembled nb nc sc bs rep inp kw σ m σ'.
Proof. apply wp_run, wp_assemble. Qed.

(** *** The planned units *)

Lemma block_units_lookup i c bs rep iters s idx cin j :
  (0 ≤ idx)%Z → j < iters →
  let cin_j := match j with O => cin | S _ => c end in
  let s_j := if (idx + 2 * Z.of_nat j =? 0)%Z then s else 1%Z in
  block_units i c bs rep iters s idx cin !! (2 * j)
  = Some (depthwise_args i (idx + 2 * Z.of_nat j) cin_j s_j bs rep, cin_j) ∧
  block_units i c bs rep iters s idx cin !! (2 * j + 1)
  = Some (pointwise_args i (idx + 2 * Z.of_nat j) cin_j c bs rep, cin_j).
Proof.
  revert s idx cin j. induction iters as [|iters IH]; intros s idx cin j Hidx Hj;
    [lia|].
  destruct j as [|j].
  - cbn. by rewrite Z.add_0_r.
  - replace (2 * S j + 1) with (S (S (2 * j + 1))) by lia.
    replace (2 * S j) with (S (S (2 * j))) by lia.
    cbn [block_units lookup list_lookup].
    destruct (IH (if (idx =? 0)%Z then s else 1%Z) (idx + 2)%Z c j) as [H1 H2];
      [lia..|].
    replace (idx + 2 + 2 * Z.of_nat j)%Z with (idx + 2 * Z.of_nat (S j))%Z
      in H1, H2 by lia.
    assert ((idx + 2 * Z.of_nat (S j) =? 0)%Z = false) as Hne
      by (apply Z.eqb_neq; lia).
    rewrite Hne in H1 |- *. destruct j; exact (conj H1 H2).
Qed.

Lemma stage_units_lookup bs rep i cns cin k c n p :
  cns !! k = Some (c, n) → p < 2 * Z.to_nat n →
  stage_units bs rep i cns cin
    !! (2 * sum_list_with (λ cn, Z.to_nat cn.2) (take k cns) + p)
  = block_units (i + k) c bs rep (Z.to_nat n) 2 0 (stage_in cns k cin) !! p.
Proof.
  revert i cin k. induction cns as [|[c0 n0] cns IH]; intros i cin k Hk Hp;
    [done|].
  destruct k as [|k]; cbn [stage_units take sum_list_with stage_in];
    cbn in Hk.
  - injection Hk as -> ->. rewrite Nat.mul_0_r, Nat.add_0_l, Nat.add_0_r.
    apply lookup_app_l. by rewrite block_units_length.
  - rewrite lookup_app_r by (rewrite block_units_length; simpl; lia).
    rewrite block_units_length.
    match goal with |- _ !! ?q = _ =>
      replace q
        with (2 * sum_list_with (λ cn, Z.to_nat cn.2) (take k cns) + p)
        by (simpl; lia)
    end.
    rewrite IH by done. by replace (i + S k) with (S i + k) by lia.
Qed.

Lemma stage_units_length bs rep i cns cin :
  length (stage_units bs rep i cns cin)
  = 2 * sum_list_with (λ cn, Z.to_nat cn.2) cns.
Proof.
  revert i cin. induction cns as [|[c n] cns IH]; intros i cin; [done|].
  cbn [stage_units sum_list_with]. rewrite length_app, block_units_length, IH.
  simpl. lia.
Qed.

Lemma chained_app cin us1 us2 :
  chained cin us1 →
  chained (last_out cin us1) us2 →
  chained cin (us1 ++ us2).
Proof.
  revert cin. induction us1 as [|[a c] us1 IH]; intros cin;
    [intros _ H; exact H|].
  simpl. intros [-> H1] H2. split; [done|]. apply IH; [done|].
  unfold last_out in *. destruct us1 as [|u us1]; [exact H2|].
  rewrite last_cons_cons in H2.
  destruct (last (u :: us1)) eqn:E; [exact H2|]. by apply last_None in E.
Qed.

Lemma block_units_chained i c bs rep iters s idx cin :
  chained cin (block_units i c bs rep iters s idx cin) ∧
  last_out cin (block_units i c bs rep iters s idx cin) = block_out c iters cin.
Proof.
  revert s idx cin. induction iters as [|iters IH]; intros s idx cin; [done|].
  destruct (IH (if (idx =? 0)%Z then s else 1%Z) (idx + 2)%Z c) as [H1 H2].
  cbn [block_units]. split; [done|].
  unfold last_out in *. rewrite last_cons_cons. destruct iters; [done|].
  cbn [block_units] in *. rewrite last_cons_cons.
  destruct (last _) eqn:E; [exact H2|]. by apply last_None in E.
Qed.

Lemma stage_units_chained bs rep i cns cin :
  chained cin (stage_units bs rep i cns cin).
Proof.
  revert i cin. induction cns as [|[c n] cns IH]; intros i cin; [done|].
  cbn [stage_units].
  destruct (block_units_chained i c bs rep (Z.to_nat n) 2 0 cin) as [H1 H2].
  apply chained_app; [done|]. rewrite H2. apply IH.
Qed.

Lemma chained_lookup cin us p a c1 a' c2 :
  chained cin us → us !! p = Some (a, c1) → us !! S p = Some (a', c2) →
  c2 = filters a.
Proof.
  revert cin p. induction us as [|[a0 c0] us IH]; intros cin p; [done|].
  intros [_ Hc] Hp HSp. destruct p as [|p]; simplify_eq/=.
  - destruct us as [|[a1 c1'] us]; simplify_eq/=. by destruct Hc.
  - eauto.
Qed.

Lemma block_units_skip_valid i c bs rep iters s idx cin :
  Forall skip_valid (block_units i c bs rep iters s idx cin).
Proof.
  revert s idx cin. induction iters as [|iters IH]; intros s idx cin;
    [constructor|].
  cbn [block_units]. constructor; [|constructor; [|apply IH]];
    unfold skip_valid; simpl.
  - split_and!; [|intros _; split; [done|apply Z.eqb_eq]|done].
    intros Hs. split; [done|]. by apply Z.eqb_eq.
  - split_and!; [|done|intros _; split; [done|apply Z.eqb_eq]].
    intros Hs. by apply Z.eqb_eq in Hs.
Qed.

Lemma stage_units_skip_valid bs rep i cns cin :
  Forall skip_valid (stage_units bs rep i cns cin).
Proof.
  revert i cin. induction cns as [|[c n] cns IH]; intros i cin;
    [constructor|].
  cbn [stage_units]. apply Forall_app. split; [|apply IH].
  apply block_units_skip_valid.
Qed.

Lemma block_units_set_mode r i c bs rep iters s idx cin :
  prod_map (set_mode r) id <$> block_units i c bs rep iters s idx cin
  = block_units i c bs r iters s idx cin.
Proof.
  revert s idx cin. induction iters as [|iters IH]; intros s idx cin; [done|].
  cbn [block_units fmap list_fmap]. f_equal. f_equal. apply IH.
Qed.

Lemma stage_units_set_mode r bs rep i cns cin :
  prod_map (set_mode r) id <$> stage_units bs rep i cns cin
  = stage_units bs r i cns cin.
Proof.
  revert i cin. induction cns as [|[c n] cns IH]; intros i cin; [done|].
  cbn [stage_units]. by rewrite fmap_app, block_units_set_mode, IH.
Qed.

Lemma block_units_mode i c bs rep iters s idx cin :
  Forall (λ u, reparameterized u.1 = rep)
         (block_units i c bs rep iters s idx cin).
Proof.
  revert s idx cin. induction iters as [|iters IH]; intros s idx cin;
    [constructor|].
  cbn [block_units]. repeat constructor. apply IH.
Qed.

Lemma stage_units_mode bs rep i cns cin :
  Forall (λ u, reparameterized u.1 = rep) (stage_units bs rep i cns cin).
Proof.
  revert i cin. induction cns as [|[c n] cns IH]; intros i cin;
    [constructor|].
  cbn [stage_units]. apply Forall_app. split; [|apply IH].
  apply block_units_mode.
Qed.

(** *** The constructor *)

Lemma MobileOne_init_assemble nb nc sc bs rep inp kw w σ :
  kw !! "weights" = Some w → negb (is_none w) && rep = false →
  MobileOne_init B nb nc sc bs rep inp kw σ
  = assemble B nb nc sc bs rep inp kw σ.
Proof. intros Hw Hc. unfold MobileOne_init. by rewrite Hw, Hc. Qed.

(** C2.  A request for the reparameterized state together with pretrained
    weights (a [weights] argument that is not [None]) raises the
    [ValueError] of lines 33-40 and leaves the store as it was: nothing has
    been assembled or allocated.  The same request for the training state
    passes the check, is assembled and returns a model. *)
Theorem weights_with_reparameterized_rejected nb nc sc bs inp kw w σ :
  kw !! "weights" = Some w → is_none w = false →
  MobileOne_init B nb nc sc bs true inp kw σ
  = (inl (ValueError_weights w), σ) ∧
  MobileOne_init B nb nc sc bs false inp kw σ
  = assemble B nb nc sc bs false inp kw σ ∧
  ∃ m σ', MobileOne_init B nb nc sc bs false inp kw σ = (inr m, σ').
Proof.
  intros Hw Hn. split_and!.
  - unfold MobileOne_init. by rewrite Hw, Hn.
  - apply (MobileOne_init_assemble _ _ _ _ _ _ _ w); [done|].
    by rewrite andb_false_r.
  - rewrite (MobileOne_init_assemble _ _ _ _ _ _ _ w)
      by (done || by rewrite andb_false_r).
    destruct (assemble_run nb nc sc bs false inp kw σ) as (m & σ' & H & _).
    eauto.
Qed.

(** C3.  The units of the assembled model are the stem followed by the
    pairs of the stages.  Stage [i], of width [c] and block count [n],
    contributes exactly [n] pairs ([range(n)]: none when [n] is not
    positive), from the position [stage_offset] on.  Pair [j] is a
    depthwise unit (kernel 3, as many filters as input channels, stride 2
    for the first pair and 1 for the others, skip iff the stride is 1, the
    branch size of the request) followed by a pointwise unit (kernel 1,
    stride 1, [c] filters, skip iff the input has [c] channels, no scale
    branch, the branch size of the request).  Every unit reads as many
    channels as the unit before it has filters. *)
Theorem stage_emits_block_pairs nb nc sc bs rep inp kw σ :
  ∃ m σ', assemble B nb nc sc bs rep inp kw σ = (inr m, σ') ∧
    let us := units (m_layers m) in
    let cns := zip nc nb in
    length us = 1 + 2 * sum_list_with (λ cn, Z.to_nat cn.2) cns ∧
    (∀ p a cin a' cin',
       us !! p = Some (a, cin) → us !! S p = Some (a', cin') →
       cin' = filters a) ∧
    ∀ i c n j, cns !! i = Some (c, n) → j < Z.to_nat n →
      ∃ cin,
        (j ≠ 0 → cin = c) ∧
        us !! (stage_offset cns i + 2 * j)
        = Some ({| filters := cin; kernel_size := 3;
                   strides := (if j is O then 2 else 1);
                   has_skip := ((if j is O then 2 else 1) =? 1)%Z;
                   has_scale := None; use_depthwise := Some true;
                   branch_size := bs; reparameterized := rep;
                   activation := "relu";
                   name := "stages_" +:+ pretty i +:+ "_"
                           +:+ pretty (2 * Z.of_nat j)%Z |}, cin) ∧
        us !! (stage_offset cns i + 2 * j + 1)
        = Some ({| filters := c; kernel_size := 1; strides := 1;
                   has_skip := (cin =? c)%Z;
                   has_scale := Some false; use_depthwise := Some false;
                   branch_size := bs; reparameterized := rep;
                   activation := "relu";
                   name := "stages_" +:+ pretty i +:+ "_"
                           +:+ pretty (2 * Z.of_nat j + 1)%Z |}, cin).
Proof.
  destruct (assemble_run nb nc sc bs rep inp kw σ)
    as (m & σ' & Hrun & _ & _ & Hu & _).
  exists m, σ'. split; [done|]. cbv zeta. rewrite Hu. split_and!.
  - cbn [length]. rewrite stage_units_length. lia.
  - intros p a cin a' cin'. apply chained_lookup with (cin := (input_layers B inp kw).2).
    split; [done|]. apply stage_units_chained.
  - intros i c n j Hi Hj.
    destruct (block_units_lookup i c bs rep (Z.to_nat n) 2 0
                (stage_in (zip nc nb) i sc) j) as [H1 H2]; [lia..|].
    cbv zeta in H1, H2.
    exists (match j with O => stage_in (zip nc nb) i sc | S _ => c end).
    unfold stage_offset. split_and!.
    + by destruct j.
    + replace (1 + 2 * _ + 2 * j)
        with (S (2 * sum_list_with (λ cn, Z.to_nat cn.2) (take i (zip nc nb))
                 + 2 * j)) by lia.
      pose proof (stage_units_lookup bs rep 0 _ sc i c n (2 * j) Hi) as Hl.
      change (0 + i) with i in Hl.
      rewrite H1 in Hl. destruct j; apply Hl; lia.
    + replace (1 + 2 * _ + 2 * j + 1)
        with (S (2 * sum_list_with (λ cn, Z.to_nat cn.2) (take i (zip nc nb))
                 + (2 * j + 1))) by lia.
      pose proof (stage_units_lookup bs rep 0 _ sc i c n (2 * j + 1) Hi) as Hl.
      change (0 + i) with i in Hl.
      rewrite H2 in Hl. destruct j; apply Hl; lia.
Qed.

Lemma fst_prod_map_id {V W} (f : V → W) (d : list (string * V)) :
  (prod_map id f <$> d).*1 = d.*1.
Proof. induction d as [|[k v] d IH]; [done|]. simpl. f_equal. apply IH. Qed.

(** C4.  For [num_blocks = [2, 8, 10, 1]], [num_channels = [48, 128, 256,
    1024]] and [stem_channels = 48] the keys of the features are, in
    insertion order, STEM_S2, BLOCK0_S4, BLOCK1_S8, BLOCK2_S16 and
    BLOCK3_S32, without repetition.  STEM_S2 is the output of the stem
    (one unit precedes it) and the feature of a stage is the output of its
    last unit (after 5, 21, 41 and 43 units), with the channel count of
    the stage.  The keys are the ones that the class announces in
    [available_feature_keys]. *)
Theorem feature_keys_in_order bs rep inp kw σ :
  ∃ m σ',
    assemble B [2; 8; 10; 1]%Z [48; 128; 256; 1024]%Z 48 bs rep inp kw σ
    = (inr m, σ') ∧
    (m_features m).*1
    = ["STEM_S2"; "BLOCK0_S4"; "BLOCK1_S8"; "BLOCK2_S16"; "BLOCK3_S32"] ∧
    (m_features m).*1 = available_feature_keys ∧
    NoDup (m_features m).*1 ∧
    prod_map id feature_mark <$> m_features m
    = [("STEM_S2", (1, 48%Z)); ("BLOCK0_S4", (5, 48%Z));
       ("BLOCK1_S8", (21, 128%Z)); ("BLOCK2_S16", (41, 256%Z));
       ("BLOCK3_S32", (43, 1024%Z))].
Proof.
  destruct (assemble_run [2; 8; 10; 1]%Z [48; 128; 256; 1024]%Z 48 bs rep
              inp kw σ) as (m & σ' & Hrun & _ & _ & _ & Hf & _).
  exists m, σ'. split; [done|].
  assert (prod_map id feature_mark <$> m_features m
          = [("STEM_S2", (1, 48%Z)); ("BLOCK0_S4", (5, 48%Z));
             ("BLOCK1_S8", (21, 128%Z)); ("BLOCK2_S16", (41, 256%Z));
             ("BLOCK3_S32", (43, 1024%Z))]) as Hmarks
    by (rewrite Hf; vm_compute; reflexivity).
  assert ((m_features m).*1
          = ["STEM_S2"; "BLOCK0_S4"; "BLOCK1_S8"; "BLOCK2_S16"; "BLOCK3_S32"])
    as Hkeys by (by rewrite <-(fst_prod_map_id feature_mark), Hmarks).
  split_and!; [done| | |done].
  - by rewrite Hkeys.
  - rewrite Hkeys. compute_done.
Qed.

(** C5.  Assembling one request for the training state and for the
    reparameterized state gives unit sequences of the same length, and the
    units of the second are those of the first with the mode flag set:
    kernel size, stride, input and output channels, branch size, skip and
    scale flags and names agree at every index.  All units of the first
    are in the training state, all units of the second in the
    reparameterized state. *)
Theorem topology_independent_of_mode nb nc sc bs inp kw σ1 σ2 :
  ∃ m1 m2 σ1' σ2',
    assemble B nb nc sc bs false inp kw σ1 = (inr m1, σ1') ∧
    assemble B nb nc sc bs true inp kw σ2 = (inr m2, σ2') ∧
    length (units (m_layers m1)) = length (units (m_layers m2)) ∧
    units (m_layers m2)
    = prod_map (set_mode true) id <$> units (m_layers m1) ∧
    Forall (λ u, reparameterized u.1 = false) (units (m_layers m1)) ∧
    Forall (λ u, reparameterized u.1 = true) (units (m_layers m2)).
Proof.
  destruct (assemble_run nb nc sc bs false inp kw σ1)
    as (m1 & σ1' & Hrun1 & _ & _ & Hu1 & _).
  destruct (assemble_run nb nc sc bs true inp kw σ2)
    as (m2 & σ2' & Hrun2 & _ & _ & Hu2 & _).
  exists m1, m2, σ1', σ2'.
  assert (units (m_layers m2)
          = prod_map (set_mode true) id <$> units (m_layers m1)) as Heq.
  { rewrite Hu1, Hu2. cbn [fmap list_fmap].
    change (list_fmap _ _ ?f ?l) with (f <$> l).
    by rewrite stage_units_set_mode. }
  split_and!; try done.
  - by rewrite Heq, length_fmap.
  - rewrite Hu1. constructor; [done|]. apply stage_units_mode.
  - rewrite Hu2. constructor; [done|]. apply stage_units_mode.
Qed.

(** C9.  In every assembled model, in either mode, a unit whose skip path
    is enabled has as many filters as input channels and stride 1.  A
    depthwise unit has as many filters as input channels and its skip path
    is enabled exactly when its stride is 1; a pointwise unit has stride 1
    and its skip path is enabled exactly when its input has as many
    channels as it has filters, the width of the stage. *)
Theorem skip_only_on_shape_preserving_units nb nc sc bs rep inp kw σ :
  ∃ m σ', assemble B nb nc sc bs rep inp kw σ = (inr m, σ') ∧
    ∀ a cin, (a, cin) ∈ units (m_layers m) →
      (has_skip a = true → cin = filters a ∧ strides a = 1%Z) ∧
      (use_depthwise a = Some true →
         filters a = cin ∧ (has_skip a = true ↔ strides a = 1%Z)) ∧
      (use_depthwise a = Some false →
         strides a = 1%Z ∧ (has_skip a = true ↔ cin = filters a)).
Proof.
  destruct (assemble_run nb nc sc bs rep inp kw σ)
    as (m & σ' & Hrun & _ & _ & Hu & _).
  exists m, σ'. split; [done|]. intros a cin Hin.
  assert (Forall skip_valid (units (m_layers m))) as Hall.
  { rewrite Hu. constructor; [|apply stage_units_skip_valid].
    by unfold skip_valid. }
  rewrite Forall_forall in Hall. exact (Hall _ Hin).
Qed.

Lemma zip_truncated (nc nb : list Z) :
  zip (take (length nc `min` length nb) nc)
      (take (length nc `min` length nb) nb)
  = zip nc nb.
Proof. unfold zip. apply zip_with_take_both'; lia. Qed.

(** C6, as the code has it.  Sequences of different lengths are not
    rejected: the stages are built from the pairs that [zip] forms, and
    the entries of the longer sequence beyond the length of the shorter
    one are ignored.  The model has the layers and the features of the
    model assembled from the two sequences cut to the shorter length. *)
Theorem mismatched_lengths_are_truncated nb nc sc bs rep inp kw σ :
  ∃ m m' σ',
    assemble B nb nc sc bs rep inp kw σ = (inr m, σ') ∧
    assemble B (take (length nc `min` length nb) nb)
               (take (length nc `min` length nb) nc) sc bs rep inp kw σ
    = (inr m', σ') ∧
    m_layers m' = m_layers m ∧ m_features m' = m_features m.
Proof.
  destruct (assemble_run nb nc sc bs rep inp kw σ) as (m & σ' & Hrun & _).
  exists m,
    {| m_layers := m_layers m; m_features := m_features m;
       m_num_blocks := take (length nc `min` length nb) nb;
       m_num_channels := take (length nc `min` length nb) nc;
       m_stem_channels := sc; m_branch_size := bs;
       m_reparameterized := rep; m_base := base_config B inp kw |}, σ'.
  split; [done|]. split; [|done].
  revert Hrun. unfold assemble. rewrite zip_truncated.
  unfold mbind, M_bind, mret, M_ret.
  repeat match goal with
         | |- context [match ?r with _ => _ end] =>
             destruct r as [[?|?] ?]; try discriminate
         | |- context [let '(_, _) := ?r in _] => destruct r
         end.
  by intros [= <- <-].
Qed.

(** *** Reads and assignments *)

Lemma bind_run {A1 A2} (m : M B A1) (f : A1 → M B A2) σ r σ' :
  (m ≫= f) σ = (r, σ') →
  (∃ e, m σ = (inl e, σ') ∧ r = inl e) ∨
  (∃ a σ1, m σ = (inr a, σ1) ∧ f a σ1 = (r, σ')).
Proof.
  unfold mbind, M_bind. destruct (m σ) as [[e|a] σ1]; [|by eauto].
  intros [= <- <-]. left. eauto.
Qed.

Lemma read_run l σ r σ' :
  read B l σ = (r, σ') → σ' = σ ∧ ∀ v, r = inr v → σ !! l = Some v.
Proof.
  unfold read. destruct (σ !! l); intros [= <- <-]; split; congruence.
Qed.

Lemma read_all_run ls σ r σ' :
  read_all B ls σ = (r, σ') →
  σ' = σ ∧ ∀ vs, r = inr vs → Forall2 (λ w v, σ !! w = Some v) ls vs.
Proof.
  revert r σ'. induction ls as [|l ls IH]; intros r σ'; cbn [read_all].
  - intros [= <- <-]. split; [done|]. intros vs [= <-]. constructor.
  - intros [(e & Hr & ->)|(v & σ1 & Hr & Hk)]%bind_run;
      apply read_run in Hr as [-> Hv]; [done|].
    apply bind_run in Hk as [(e & Hr & ->)|(vs & σ2 & Hr & Hk)];
      apply IH in Hr as [-> Hvs]; [done|].
    injection Hk as <- <-. split; [done|]. intros ? [= <-].
    constructor; eauto.
Qed.

Lemma assign_run l v σ r σ' :
  assign B l v σ = (r, σ') →
  length σ' = length σ ∧ (∀ l', l' ≠ l → σ' !! l' = σ !! l') ∧
  (∀ u, r = inr u → σ' !! l = Some v).
Proof.
  unfold assign. destruct (σ !! l) as [old|] eqn:Hl;
    [destruct (decide _)|]; intros [= <- <-]; split_and!; try done.
  - apply length_insert.
  - intros l' Hne. by apply list_lookup_insert_ne.
  - intros _ _. apply list_lookup_insert_eq. by eapply lookup_lt_Some.
Qed.

Lemma copy_weights_frame ws wt σ r σ' :
  copy_weights B (zip ws wt) σ = (r, σ') →
  length σ' = length σ ∧ ∀ l', l' ∉ wt → σ' !! l' = σ !! l'.
Proof.
  revert wt σ. induction ws as [|w ws IH]; intros [|tw wt] σ;
    try (intros [= <- <-]; done).
  cbn [zip zip_with copy_weights].
  intros [(e & Hr & ->)|(v & σ1 & Hr & Hk)]%bind_run;
    apply read_run in Hr as [-> Hv]; [done|].
  apply bind_run in Hk as [(e & Ha & ->)|([] & σ2 & Ha & Hk)];
    apply assign_run in Ha as (Hlen & Hfr & _).
  - split; [done|]. intros l' [Hne _]%not_elem_of_cons. by apply Hfr.
  - apply IH in Hk as [Hlen' Hfr']. split; [congruence|].
    intros l' [Hne Hnin]%not_elem_of_cons. rewrite Hfr' by done. by apply Hfr.
Qed.

Lemma copy_weights_spec ws wt σ σ' :
  NoDup wt → (∀ w, w ∈ ws → w ∉ wt) →
  copy_weights B (zip ws wt) σ = (inr tt, σ') →
  ∀ j w tw, ws !! j = Some w → wt !! j = Some tw →
    ∃ v, σ !! w = Some v ∧ σ' !! tw = Some v.
Proof.
  revert wt σ. induction ws as [|w0 ws IH]; intros [|tw0 wt] σ Hnd Hdis;
    try done.
  cbn [zip zip_with copy_weights].
  intros [(e & Hr & ?)|(v0 & σ1 & Hr & Hk)]%bind_run; [done|].
  apply read_run in Hr as [-> Hv0].
  apply bind_run in Hk as [(e & Ha & ?)|([] & σ2 & Ha & Hk)]; [done|].
  apply assign_run in Ha as (Hlen & Hfr & Hset).
  apply NoDup_cons in Hnd as [Hnin Hnd].
  intros [|j] w tw Hw Htw; simplify_eq/=.
  - exists v0. split; [by apply Hv0|].
    apply copy_weights_frame in Hk as [_ ->]; [|done]. by eapply Hset.
  - destruct (IH wt σ2 Hnd) with (j := j) (w := w) (tw := tw)
      as (v & Hv & Hv'); try done.
    { intros w' Hin Hin'. eapply (Hdis w'); by constructor. }
    exists v. split; [|done]. rewrite <-Hv. symmetry. apply Hfr.
    intros ->. apply (Hdis tw0); [|by constructor].
    constructor. by eapply list_elem_of_lookup_2.
Qed.

(** *** One pair of layers *)

Lemma layer_wf_fused a cin ws k b :
  layer_wf (RepConv a cin ws (Some (k, b))) → ws = [k; b].
Proof.
  simpl. destruct (reparameterized a); [|done].
  by intros (k' & b' & -> & [= -> ->]).
Qed.

Lemma transfer_layer_frame l t σ r σ' :
  layer_wf t → transfer_layer B l t σ = (r, σ') →
  length σ' = length σ ∧ ∀ l', l' ∉ weights t → σ' !! l' = σ !! l'.
Proof.
  intros Hwf. destruct l as [a cin ws rc|nm ws]; cbn [transfer_layer].
  - intros [(e & Hr & ->)|(vs & σ1 & Hr & Hk)]%bind_run;
      apply read_all_run in Hr as [-> _]; [done|].
    apply bind_run in Hk as [(e & Hr & ->)|([kernel bias] & σ2 & Hr & Hk)];
      unfold lift in Hr; injection Hr as Hg <-; [done|].
    destruct t as [a' cin' ws' [[k b]|]|nm' ws'];
      [|by injection Hk as <- <-..].
    apply layer_wf_fused in Hwf as ->.
    apply bind_run in Hk as [(e & Ha & ->)|([] & σ3 & Ha & Hk)];
      apply assign_run in Ha as (Hlen & Hfr & _).
    + split; [done|]. intros l' [Hne _]%not_elem_of_cons. by apply Hfr.
    + apply assign_run in Hk as (Hlen' & Hfr' & _). split; [congruence|].
      intros l' [Hk [Hb _]%not_elem_of_cons]%not_elem_of_cons.
      rewrite Hfr' by done. by apply Hfr.
  - apply copy_weights_frame.
Qed.

Lemma transfer_layer_spec l t σ σ' :
  layer_wf t → NoDup (weights t) → (∀ w, w ∈ weights l → w ∉ weights t) →
  transfer_layer B l t σ = (inr tt, σ') → transferred σ σ' l t.
Proof.
  intros Hwf Hnd Hdis. destruct l as [a cin ws rc|nm ws];
    cbn [transfer_layer transferred].
  - intros [(e & Hr & ?)|(vs & σ1 & Hr & Hk)]%bind_run; [done|].
    apply read_all_run in Hr as [-> Hvs].
    apply bind_run in Hk as [(e & Hr & ?)|([kernel bias] & σ2 & Hr & Hk)];
      [done|].
    unfold lift in Hr; injection Hr as Hg <-.
    destruct t as [a' cin' ws' [[k b]|]|nm' ws']; [|done..].
    pose proof (layer_wf_fused _ _ _ _ _ Hwf) as ->. cbn [weights] in Hnd.
    apply NoDup_cons in Hnd as [Hkb _].
    apply not_elem_of_cons in Hkb as [Hkb _].
    apply bind_run in Hk as [(e & Ha & ?)|([] & σ3 & Ha & Hk)]; [done|].
    apply assign_run in Ha as (_ & _ & Hk1).
    apply assign_run in Hk as (_ & Hfr & Hb1).
    exists vs, kernel, bias, k, b. split_and!; eauto.
    rewrite Hfr by done. by eapply Hk1.
  - intros Hc. by apply copy_weights_spec.
Qed.

Lemma Forall2_read_eq (σa σb : store B) ws vs :
  (∀ w, w ∈ ws → σa !! w = σb !! w) →
  Forall2 (λ w v, σa !! w = Some v) ws vs →
  Forall2 (λ w v, σb !! w = Some v) ws vs.
Proof.
  intros Heq H. induction H as [|w v ws vs Hw H IH]; constructor.
  - rewrite <-Heq; [done|by constructor].
  - apply IH. intros w' Hin. apply Heq. by constructor.
Qed.

Lemma transferred_source σa σb σ' l t :
  (∀ w, w ∈ weights l → σa !! w = σb !! w) →
  transferred σa σ' l t → transferred σb σ' l t.
Proof.
  intros Heq. destruct l as [a cin ws rc|nm ws]; cbn [transferred weights] in *.
  - intros (vs & kernel & bias & k & b & Hvs & Hrest).
    exists vs, kernel, bias, k, b. split; [|done].
    by eapply Forall2_read_eq.
  - intros H j w tw Hw Htw. destruct (H j w tw Hw Htw) as (v & Hv & Hv').
    exists v. split; [|done]. rewrite <-Heq; [done|].
    by eapply list_elem_of_lookup_2.
Qed.

Lemma transferred_target σ σa σb l t :
  layer_wf t → (∀ w, w ∈ weights t → σa !! w = σb !! w) →
  transferred σ σa l t → transferred σ σb l t.
Proof.
  intros Hwf Heq. destruct l as [a cin ws rc|nm ws]; cbn [transferred].
  - intros (vs & kernel & bias & k & b & Hvs & Hg & (a' & cin' & ws' & ->)
            & Hk & Hb).
    pose proof (layer_wf_fused _ _ _ _ _ Hwf) as ->. cbn [weights] in Heq.
    exists vs, kernel, bias, k, b. split_and!; eauto.
    + rewrite <-Heq; [done|]. by constructor.
    + rewrite <-Heq; [done|]. by do 2 constructor.
  - intros H j w tw Hw Htw. destruct (H j w tw Hw Htw) as (v & Hv & Hv').
    exists v. split; [done|]. rewrite <-Heq; [done|].
    by eapply list_elem_of_lookup_2.
Qed.

(** *** The loop over the pairs *)

Lemma transfer_frame Ls Lt σ r σ' :
  Forall layer_wf Lt → transfer B (zip Ls Lt) σ = (r, σ') →
  length σ' = length σ ∧
  ∀ l', l' ∉ concat (weights <$> Lt) → σ' !! l' = σ !! l'.
Proof.
  revert Lt σ. induction Ls as [|l Ls IH]; intros [|t Lt] σ Hwf;
    try (intros [= <- <-]; done).
  apply Forall_cons in Hwf as [Hwt Hwf]. cbn [zip zip_with transfer].
  intros [(e & Hr & ->)|([] & σ1 & Hr & Hk)]%bind_run;
    apply transfer_layer_frame in Hr as [Hlen Hfr]; try done.
  - split; [done|]. intros l' Hl'. apply Hfr. intros Hin. apply Hl'.
    cbn [fmap list_fmap concat]. apply elem_of_app. by left.
  - apply IH in Hk as [Hlen' Hfr']; [|done]. split; [congruence|].
    intros l' Hl'. cbn [fmap list_fmap concat] in Hl'.
    apply not_elem_of_app in Hl' as [H1 H2].
    rewrite Hfr' by done. by apply Hfr.
Qed.

Lemma elem_of_weights_lookup (Ls : list Layer) i l w :
  Ls !! i = Some l → w ∈ weights l → w ∈ concat (weights <$> Ls).
Proof.
  revert i. induction Ls as [|l0 Ls IH]; intros [|i] Hl Hw; simplify_eq/=;
    apply elem_of_app; [by left|right; eauto].
Qed.

Lemma transfer_spec Ls Lt σ σ' :
  Forall layer_wf Lt → NoDup (concat (weights <$> Lt)) →
  (∀ w, w ∈ concat (weights <$> Ls) → w ∉ concat (weights <$> Lt)) →
  transfer B (zip Ls Lt) σ = (inr tt, σ') →
  ∀ i l t, Ls !! i = Some l → Lt !! i = Some t → transferred σ σ' l t.
Proof.
  revert Lt σ. induction Ls as [|l0 Ls IH]; intros [|t0 Lt] σ Hwf Hnd Hdis;
    try done.
  apply Forall_cons in Hwf as [Hwt Hwf].
  cbn [fmap list_fmap concat] in Hnd, Hdis.
  apply NoDup_app in Hnd as (Hnd0 & Hsep & Hnd).
  cbn [zip zip_with transfer].
  intros [(e & Hr & ?)|([] & σ1 & Hr & Hk)]%bind_run; [done|].
  pose proof (transfer_layer_frame _ _ _ _ _ Hwt Hr) as [_ Hfr0].
  pose proof (transfer_frame _ _ _ _ _ Hwf Hk) as [_ Hfr].
  intros [|i] l t Hl Ht; simplify_eq/=.
  - apply transferred_target with (σa := σ1); [done| |].
    + intros w Hw. symmetry. apply Hfr. by apply Hsep.
    + apply transfer_layer_spec; [done..| |done].
      intros w Hw Hw'. apply (Hdis w); apply elem_of_app; by left.
  - apply transferred_source with (σa := σ1).
    + intros w Hw. apply Hfr0. intros Hw'.
      apply (Hdis w); apply elem_of_app; [right|by left].
      by eapply elem_of_weights_lookup.
    + eapply IH; try done.
      intros w Hw Hw'. apply (Hdis w); apply elem_of_app; by right.
Qed.

(** *** [get_reparameterized_model] *)

(** Looks a key up in the configuration of line 157 or in [get_config]. *)
Ltac config_lookup :=
  unfold reparameterized_config, get_config; by simplify_map_eq.

Lemma kwargs_of_lookup config k :
  k ∉ parameter_names → kwargs_of config !! k = config !! k.
Proof.
  unfold kwargs_of, parameter_names. intros Hk. cbn [foldr].
  rewrite !not_elem_of_cons in Hk. destruct_and!.
  by rewrite !lookup_delete_ne by done.
Qed.

Lemma reparameterized_call self σ :
  MobileOne_call B (reparameterized_config self) σ
  = assemble B (m_num_blocks self) (m_num_channels self)
      (m_stem_channels self) (m_branch_size self) true
      (default PNone (m_base self !! "input_tensor"))
      (kwargs_of (reparameterized_config self)) σ.
Proof.
  assert (reparameterized_config self !! "num_blocks"
          = Some (PInts (m_num_blocks self))) as H1
    by config_lookup.
  assert (reparameterized_config self !! "num_channels"
          = Some (PInts (m_num_channels self))) as H2
    by config_lookup.
  assert (reparameterized_config self !! "stem_channels"
          = Some (PInt (m_stem_channels self))) as H3
    by config_lookup.
  assert (reparameterized_config self !! "branch_size"
          = Some (PInt (m_branch_size self))) as H4
    by config_lookup.
  assert (reparameterized_config self !! "reparameterized"
          = Some (PBool true)) as H5
    by config_lookup.
  assert (reparameterized_config self !! "input_tensor"
          = m_base self !! "input_tensor") as H6
    by config_lookup.
  assert (kwargs_of (reparameterized_config self) !! "weights" = Some PNone)
    as H7.
  { rewrite kwargs_of_lookup by compute_done.
    unfold reparameterized_config. by simplify_map_eq. }
  unfold MobileOne_call, required_ints, optional_int, optional_bool.
  rewrite H1, H2, H3, H4, H5, H6.
  unfold mbind, M_bind, mret, M_ret, MobileOne_init. by rewrite H7.
Qed.

Lemma get_reparameterized_model_run self σ r σ' :
  get_reparameterized_model B self σ = (r, σ') →
  ∃ m σ1 r2,
    assemble B (m_num_blocks self) (m_num_channels self)
      (m_stem_channels self) (m_branch_size self) true
      (default PNone (m_base self !! "input_tensor"))
      (kwargs_of (reparameterized_config self)) σ = (inr m, σ1) ∧
    assembled (m_num_blocks self) (m_num_channels self)
      (m_stem_channels self) (m_branch_size self) true
      (default PNone (m_base self !! "input_tensor"))
      (kwargs_of (reparameterized_config self)) σ m σ1 ∧
    transfer B (zip (m_layers self) (m_layers m)) σ1 = (r2, σ') ∧
    r = match r2 with inl e => inl e | inr _ => inr m end.
Proof.
  unfold get_reparameterized_model. cbv zeta.
  fold (reparameterized_config self).
  destruct (assemble_run (m_num_blocks self) (m_num_channels self)
              (m_stem_channels self) (m_branch_size self) true
              (default PNone (m_base self !! "input_tensor"))
              (kwargs_of (reparameterized_config self)) σ)
    as (m & σ1 & Hrun & Hm).
  intros [(e & Hr & ->)|(m' & σ1' & Hr & Hk)]%bind_run;
    rewrite reparameterized_call, Hrun in Hr; [done|].
  injection Hr as <- <-. exists m, σ1.
  apply bind_run in Hk as [(e & Hr & ->)|([] & σ2 & Hr & Hk)].
  - exists (inl e). by split_and!.
  - injection Hk as <- <-. exists (inr tt). by split_and!.
Qed.

Lemma store_prefix (σ σ' : store B) :
  length σ ≤ length σ' → (∀ l, l < length σ → σ' !! l = σ !! l) →
  σ `prefix_of` σ'.
Proof.
  intros Hlen H. exists (drop (length σ) σ'). apply list_eq. intros i.
  destruct (decide (i < length σ)).
  - rewrite lookup_app_l by done. by apply H.
  - rewrite lookup_app_r by lia. rewrite lookup_drop. f_equal. lia.
Qed.

(** Whatever the outcome, the call writes to variables of the model that
    it builds only: the store it leaves extends the store it found. *)
Lemma get_reparameterized_model_frame self σ r σ' :
  get_reparameterized_model B self σ = (r, σ') → σ `prefix_of` σ'.
Proof.
  intros (m & σ1 & r2 & _ & ((vals & -> & Hws) & Hwf & _) & Htr & _)
    %get_reparameterized_model_run.
  apply transfer_frame in Htr as [Hlen Hfr]; [|done].
  apply store_prefix.
  - rewrite Hlen, length_app. lia.
  - intros l Hl. rewrite Hfr.
    + by apply lookup_app_l.
    + rewrite Hws, elem_of_seq. lia.
Qed.

(** What the transfer has done when the call returns a model, at every
    index of the two sequences of layers. *)
Lemma get_reparameterized_model_transferred self σ m' σ' :
  Forall (λ w, w < length σ) (concat (weights <$> m_layers self)) →
  get_reparameterized_model B self σ = (inr m', σ') →
  ∀ i l t, m_layers self !! i = Some l → m_layers m' !! i = Some t →
    transferred σ σ' l t.
Proof.
  intros Hsrc (m & σ1 & r2 & _ & ((vals & -> & Hws) & Hwf & _) & Htr & Hr)
    %get_reparameterized_model_run i l t Hl Ht.
  destruct r2 as [e|[]]; [done|]. injection Hr as <-.
  rewrite Forall_forall in Hsrc.
  apply transferred_source with (σa := σ ++ vals).
  - intros w Hw. apply lookup_app_l, Hsrc. by eapply elem_of_weights_lookup.
  - eapply transfer_spec; try done.
    + rewrite Hws. apply NoDup_seq.
    + intros w Hw. apply Hsrc in Hw. rewrite Hws, elem_of_seq. lia.
Qed.

(** A layer that is a unit in the training state. *)
Definition training_unit (l : Layer) : bool :=
  match l with
  | RepConv a _ _ _ => negb (reparameterized a)
  | Plain _ _ => false
  end.

(** C7.  The source is a model in the training state: all its units are.
    When the call returns a model, the layers of the source and of the new
    model have been paired by index, and for the pair at every index: if
    the source layer is a unit in the training state,
    [get_reparameterized_weights] has been applied to the current values
    of its variables and the kernel and the bias it returned are the
    values of the kernel and the bias of the [reparameterized_conv2d] of
    the target; otherwise the variables of the source layer have been
    copied one by one, in order, into the variables of the target
    layer. *)
Theorem transfer_pairs_layers_by_index self σ m' σ' :
  Forall (λ u, reparameterized u.1 = false) (units (m_layers self)) →
  Forall (λ w, w < length σ) (concat (weights <$> m_layers self)) →
  get_reparameterized_model B self σ = (inr m', σ') →
  ∀ i l t, m_layers self !! i = Some l → m_layers m' !! i = Some t →
    if training_unit l then
      ∃ a cin ws rc vs kernel bias k b,
        l = RepConv a cin ws rc ∧
        Forall2 (λ w v, σ !! w = Some v) ws vs ∧
        get_reparameterized_weights B a cin vs = inr (kernel, bias) ∧
        (∃ a' cin' ws', t = RepConv a' cin' ws' (Some (k, b))) ∧
        σ' !! k = Some kernel ∧ σ' !! b = Some bias
    else
      ∀ j w tw, weights l !! j = Some w → weights t !! j = Some tw →
        ∃ v, σ !! w = Some v ∧ σ' !! tw = Some v.
Proof.
  intros Htr Hsrc Hrun i l t Hl Ht.
  pose proof (get_reparameterized_model_transferred _ _ _ _ Hsrc Hrun
                i l t Hl Ht) as H.
  destruct l as [a cin ws rc|nm ws]; cbn [training_unit transferred weights] in *.
  - assert (reparameterized a = false) as Ha.
    { rewrite Forall_forall in Htr. apply (Htr (a, cin)).
      apply list_elem_of_omap. exists (RepConv a cin ws rc).
      split; [by eapply list_elem_of_lookup_2|done]. }
    rewrite Ha. cbn [negb].
    destruct H as (vs & kernel & bias & k & b & H).
    by exists a, cin, ws, rc, vs, kernel, bias, k, b.
  - exact H.
Qed.

(** *** A transfer that fails *)

Lemma bind_ok {A1 A2} (m : M B A1) (f : A1 → M B A2) σ a σ1 :
  m σ = (inr a, σ1) → (m ≫= f) σ = f a σ1.
Proof. intros H. unfold mbind, M_bind. by rewrite H. Qed.

Lemma bind_fail {A1 A2} (m : M B A1) (f : A1 → M B A2) σ e σ1 :
  m σ = (inl e, σ1) → (m ≫= f) σ = (inl e, σ1).
Proof. intros H. unfold mbind, M_bind. by rewrite H. Qed.

(** The loop stops at the first pair that fails: the pairs before it have
    been transferred, the store is the one that this pair has left, and
    no variable of a later layer of the target has been written. *)
Lemma transfer_abort Ls Lt σ e σ' :
  Forall layer_wf Lt → NoDup (concat (weights <$> Lt)) →
  transfer B (zip Ls Lt) σ = (inl e, σ') →
  ∃ i l t σ2,
    Ls !! i = Some l ∧ Lt !! i = Some t ∧
    transfer B (zip (take i Ls) (take i Lt)) σ = (inr tt, σ2) ∧
    transfer_layer B l t σ2 = (inl e, σ') ∧
    ∀ j t' w, i < j → Lt !! j = Some t' → w ∈ weights t' →
      σ' !! w = σ !! w.
Proof.
  revert Lt σ. induction Ls as [|l0 Ls IH]; intros [|t0 Lt] σ Hwf Hnd;
    try done.
  apply Forall_cons in Hwf as [Hwt Hwf].
  cbn [fmap list_fmap concat] in Hnd.
  apply NoDup_app in Hnd as (Hnd0 & Hsep & Hnd).
  cbn [zip_with transfer].
  intros [(e0 & Hr & [= <-])|([] & σ1 & Hr & Hk)]%bind_run.
  - exists 0, l0, t0, σ. split_and!; try done.
    intros [|j] t' w Hj Ht' Hw; [lia|]. cbn in Ht'.
    apply transfer_layer_frame in Hr as [_ Hfr]; [|done]. apply Hfr.
    intros Hin. apply (Hsep w Hin). by eapply elem_of_weights_lookup.
  - destruct (IH Lt σ1 Hwf Hnd Hk)
      as (i & l & t & σ2 & Hl & Ht & Hpre & Hfail & Hlater).
    exists (S i), l, t, σ2. split_and!; try done.
    + cbn [take zip_with transfer]. by rewrite (bind_ok _ _ _ _ _ Hr).
    + intros [|j] t' w Hj Ht' Hw; [lia|]. cbn in Ht'.
      rewrite (Hlater j t' w) by (done || lia).
      apply transfer_layer_frame in Hr as [_ Hfr]; [|done]. apply Hfr.
      intros Hin. apply (Hsep w Hin). by eapply elem_of_weights_lookup.
Qed.

Lemma transfer_abort_intro Ls Lt σ i l t σ2 e σ' :
  Ls !! i = Some l → Lt !! i = Some t →
  transfer B (zip (take i Ls) (take i Lt)) σ = (inr tt, σ2) →
  transfer_layer B l t σ2 = (inl e, σ') →
  transfer B (zip Ls Lt) σ = (inl e, σ').
Proof.
  revert Ls Lt σ. induction i as [|i IH]; intros [|l0 Ls] [|t0 Lt] σ Hl Ht;
    try done.
  - injection Hl as ->. injection Ht as ->.
    cbn [take zip_with transfer]. intros [= <-] Hf.
    by rewrite (bind_fail _ _ _ _ _ Hf).
  - cbn [take zip_with transfer].
    intros [(e0 & ? & ?)|([] & σ1 & Hr & Hk)]%bind_run Hf; [done|].
    rewrite (bind_ok _ _ _ _ _ Hr). by eapply IH.
Qed.

(** C8.  The model that [get_reparameterized_model] converts is built
    inside the call, in variables that the call allocates.  The call fails
    exactly when the transfer of some pair of layers fails after the pairs
    before it have succeeded: it then stops there, with the exception and
    the store of that pair, and returns no model.  Every variable that
    existed before the call holds the value it held, and no variable of a
    layer of the target behind the failing pair has been written. *)
Theorem failed_transfer_aborts_at_first_failure self σ :
  ∃ m σ1,
    MobileOne_call B (reparameterized_config self) σ = (inr m, σ1) ∧
    σ `prefix_of` σ1 ∧
    (∀ w, w ∈ concat (weights <$> m_layers m) → length σ ≤ w < length σ1) ∧
    ∀ e σ',
      (get_reparameterized_model B self σ = (inl e, σ') →
       σ `prefix_of` σ' ∧ (∀ w v, σ !! w = Some v → σ' !! w = Some v) ∧
       ∃ i l t σ2,
         m_layers self !! i = Some l ∧ m_layers m !! i = Some t ∧
         transfer B (zip (take i (m_layers self)) (take i (m_layers m))) σ1
         = (inr tt, σ2) ∧
         transfer_layer B l t σ2 = (inl e, σ') ∧
         ∀ j t' w, i < j → m_layers m !! j = Some t' → w ∈ weights t' →
           σ' !! w = σ1 !! w) ∧
      (∀ i l t σ2,
         m_layers self !! i = Some l → m_layers m !! i = Some t →
         transfer B (zip (take i (m_layers self)) (take i (m_layers m))) σ1
         = (inr tt, σ2) →
         transfer_layer B l t σ2 = (inl e, σ') →
         get_reparameterized_model B self σ = (inl e, σ')).
Proof.
  destruct (assemble_run (m_num_blocks self) (m_num_channels self)
              (m_stem_channels self) (m_branch_size self) true
              (default PNone (m_base self !! "input_tensor"))
              (kwargs_of (reparameterized_config self)) σ)
    as (m & σ1 & Hrun & ((vals & -> & Hws) & Hwf & _)).
  assert (MobileOne_call B (reparameterized_config self) σ
          = (inr m, σ ++ vals)) as Hcall
    by (by rewrite reparameterized_call).
  assert (∀ r σ', transfer B (zip (m_layers self) (m_layers m)) (σ ++ vals)
                  = (inl r, σ') →
                  get_reparameterized_model B self σ = (inl r, σ')) as Hfail.
  { intros r σ' Htr. unfold get_reparameterized_model. cbv zeta.
    fold (reparameterized_config self).
    rewrite (bind_ok _ _ _ _ _ Hcall). by rewrite (bind_fail _ _ _ _ _ Htr). }
  exists m, (σ ++ vals). split_and!; [done|by exists vals| |].
  { intros w. rewrite Hws, elem_of_seq, length_app. lia. }
  intros e σ'. split.
  - intros Hget.
    pose proof (get_reparameterized_model_frame _ _ _ _ Hget) as Hp.
    split; [done|]. split; [intros w v Hw; by eapply prefix_lookup_Some|].
    apply get_reparameterized_model_run in Hget
      as (m0 & σ0 & r2 & Hrun0 & _ & Htr & Hr).
    rewrite Hrun in Hrun0. injection Hrun0 as <- <-.
    destruct r2 as [e0|u]; [|done]. injection Hr as ->.
    apply transfer_abort; [done| |done]. rewrite Hws. apply NoDup_seq.
  - intros i l t σ2 Hl Ht Hpre Hf. apply Hfail.
    by eapply transfer_abort_intro.
Qed.

(** C10.  [get_reparameterized_model] does not write to a variable that
    existed before the call, so the weights of the source are as they
    were.  The model it returns has the attributes of the source, except
    that it is reparameterized; it is built from the keyword arguments of
    the configuration of the source, with [weights] set to [None].  Where
    [BaseModel.get_config] returns the keyword arguments of the model, the
    configuration of the returned model is the configuration of the source
    with [reparameterized] set to [True] and [weights] to [None]. *)
Theorem reparameterized_model_leaves_source self σ r σ' :
  get_reparameterized_model B self σ = (r, σ') →
  σ `prefix_of` σ' ∧
  (∀ w v, w ∈ concat (weights <$> m_layers self) →
          σ !! w = Some v → σ' !! w = Some v) ∧
  ∀ m', r = inr m' →
    m_num_blocks m' = m_num_blocks self ∧
    m_num_channels m' = m_num_channels self ∧
    m_stem_channels m' = m_stem_channels self ∧
    m_branch_size m' = m_branch_size self ∧
    m_reparameterized m' = true ∧
    get_config m' !! "reparameterized" = Some (PBool true) ∧
    (∀ k, k ∈ ["num_blocks"; "num_channels"; "stem_channels"; "branch_size"] →
          get_config m' !! k = get_config self !! k) ∧
    let kw' := kwargs_of (reparameterized_config self) in
    m_base m' = base_config B (default PNone (m_base self !! "input_tensor")) kw' ∧
    kw' !! "weights" = Some PNone ∧
    (∀ k, k ∉ parameter_names → k ≠ "weights" → kw' !! k = m_base self !! k) ∧
    ((∀ inp kw, base_config B inp kw = kw) →
     m_base self !! "input_tensor" = None →
     get_config m' = reparameterized_config self).
Proof.
  intros Hrun. pose proof (get_reparameterized_model_frame _ _ _ _ Hrun) as Hp.
  split; [done|]. split; [intros w v _ Hw; by eapply prefix_lookup_Some|].
  apply get_reparameterized_model_run in Hrun
    as (m & σ1 & r2 & _ & (_ & _ & _ & _ & H1 & H2 & H3 & H4 & H5 & H6) & _ & Hr).
  intros m' ->. destruct r2 as [e|[]]; [discriminate|]. injection Hr as ->.
  cbv zeta. split_and!; try done.
  - unfold get_config. rewrite H5. by simplify_map_eq.
  - intros k Hk. unfold get_config. rewrite H1, H2, H3, H4.
    repeat (apply elem_of_cons in Hk as [->|Hk]); [by simplify_map_eq..|].
    by apply not_elem_of_nil in Hk.
  - rewrite kwargs_of_lookup by compute_done.
    unfold reparameterized_config. by simplify_map_eq.
  - intros k Hk Hw. rewrite kwargs_of_lookup by done.
    unfold reparameterized_config, get_config, parameter_names in *.
    rewrite !not_elem_of_cons in Hk. destruct_and!.
    by rewrite !lookup_insert_ne by done.
  - intros Hbase Hinp. apply map_eq. intros k.
    unfold get_config at 1. rewrite H1, H2, H3, H4, H5, H6, Hbase.
    destruct (decide (k ∈ parameter_names)) as [Hk|Hk].
    + unfold parameter_names in Hk.
      repeat (apply elem_of_cons in Hk as [->|Hk]); [config_lookup..| |].
      * rewrite !lookup_insert_ne by done.
        unfold kwargs_of, parameter_names. cbn [foldr].
        rewrite !lookup_delete_ne by done. rewrite lookup_delete_eq.
        unfold reparameterized_config, get_config.
        by rewrite !lookup_insert_ne by done.
      * by apply not_elem_of_nil in Hk.
    + pose proof Hk as Hk'. unfold parameter_names in Hk'.
      rewrite !not_elem_of_cons in Hk'. destruct_and!.
      rewrite !lookup_insert_ne by done. by apply kwargs_of_lookup.
Qed.

End Runs.

(** ** Concrete requests on the small backend *)

Definition small_kwargs : gmap string pyval := {["weights" := PNone]}.

Definition no_model : Model :=
  {| m_layers := []; m_features := []; m_num_blocks := [];
     m_num_channels := []; m_stem_channels := 0; m_branch_size := 0;
     m_reparameterized := false; m_base := ∅ |}.

(** One stage of one block and 8 channels behind a stem of 8 channels,
    built in the empty store: the model and the store that holds its
    variables. *)
Definition built (rep : bool) : Model * store small_backend :=
  match MobileOne_init small_backend [1%Z] [8%Z] 8 1 rep PNone
          small_kwargs [] with
  | (inr m, σ) => (m, σ)
  | (inl _, σ) => (no_model, σ)
  end.

(** The store of the model after its first variable, of the normalization
    in front of the stem, and the kernel of its stem have been given other
    values (as training or loading would). *)
Definition trained (rep : bool) : store small_backend :=
  <[2 := ([3; 3; 3; 8]%Z, 99%Z)]> (<[0 := ([3%Z], 42%Z)]> (built rep).2).

Example built_layers :
  (λ l, match l with RepConv a _ _ _ => name a | Plain nm _ => nm end)
    <$> m_layers (built false).1
  = ["input"; "normalization"; "stem"; "stages_0_0"; "stages_0_1";
     "avg_pool"; "classifier"] ∧
  weights <$> m_layers (built false).1
  = [[]; [0; 1]; [2; 3]; [4; 5]; [6; 7]; []; [8; 9]] ∧
  length (built false).2 = 10.
Proof. split_and!; vm_compute; reflexivity. Qed.

(** The transfer from the model in the training state: the kernel of the
    stem of the new model (position 12) is the fused kernel of the source,
    with the content 99 of the only branch; the first variable of its
    normalization (position 10) is a copy of the one of the source. *)
Example transfer_from_training :
  ∃ m' σ',
    get_reparameterized_model small_backend (built false).1 (trained false)
    = (inr m', σ') ∧
    weights <$> m_layers m'
    = [[]; [10; 11]; [12; 13]; [14; 15]; [16; 17]; []; [18; 19]] ∧
    σ' !! 12 = Some ([3; 3; 3; 8]%Z, 99%Z) ∧
    σ' !! 10 = Some ([3%Z], 42%Z) ∧
    take 10 σ' = trained false.
Proof. eexists _, _. split_and!; vm_compute; reflexivity. Qed.

Lemma weights_with_reparameterized_rejected_witness :
  MobileOne_init small_backend [1%Z] [8%Z] 8 1 true PNone
    {["weights" := PStr "imagenet"]} []
  = (inl (ValueError_weights (PStr "imagenet")), []) ∧
  MobileOne_init small_backend [1%Z] [8%Z] 8 1 false PNone
    {["weights" := PStr "imagenet"]} []
  = assemble small_backend [1%Z] [8%Z] 8 1 false PNone
      {["weights" := PStr "imagenet"]} [] ∧
  ∃ m σ', MobileOne_init small_backend [1%Z] [8%Z] 8 1 false PNone
            {["weights" := PStr "imagenet"]} [] = (inr m, σ').
Proof.
  apply (weights_with_reparameterized_rejected small_backend [1%Z] [8%Z] 8 1
           PNone {["weights" := PStr "imagenet"]} (PStr "imagenet") []);
    reflexivity.
Defined.

(** C6, the claim as stated fails: with one channel width and two block
    counts the constructor returns a model; it has the stem and the two
    pairs of the first stage. *)
Lemma mismatched_lengths_accepted :
  length [48%Z] = 1 ∧ length [2%Z; 8%Z] = 2 ∧
  ∃ m σ',
    MobileOne_init small_backend [2%Z; 8%Z] [48%Z] 48 1 false PNone
      small_kwargs [] = (inr m, σ') ∧
    (λ u, name u.1) <$> units (m_layers m)
    = ["stem"; "stages_0_0"; "stages_0_1"; "stages_0_2"; "stages_0_3"].
Proof.
  split; [done|]. split; [done|]. eexists _, _.
  split; vm_compute; reflexivity.
Qed.

(** The source built in the training state, after training: the stem (at
    index 2) is fused into the stem of the new model, the two variables of
    the normalization (at index 1) are copied. *)
Lemma transfer_pairs_layers_by_index_witness :
  ∃ m' σ',
    get_reparameterized_model small_backend (built false).1 (trained false)
    = (inr m', σ') ∧
    (∃ a cin ws rc vs kernel bias k b,
       RepConv (stem_args 8 false) 3 [2; 3] None = RepConv a cin ws rc ∧
       Forall2 (λ w v, trained false !! w = Some v) ws vs ∧
       get_reparameterized_weights small_backend a cin vs
       = inr (kernel, bias) ∧
       (∃ a' cin' ws',
          RepConv (stem_args 8 true) 3 [12; 13] (Some (12, 13))
          = RepConv a' cin' ws' (Some (k, b))) ∧
       σ' !! k = Some kernel ∧ σ' !! b = Some bias) ∧
    ∀ j w tw,
      weights (Plain "normalization" [0; 1]) !! j = Some w →
      weights (Plain "normalization" [10; 11]) !! j = Some tw →
      ∃ v, trained false !! w = Some v ∧ σ' !! tw = Some v.
Proof.
  eexists _, _. split; [vm_compute; reflexivity|]. split.
  - eapply (transfer_pairs_layers_by_index small_backend (built false).1
              (trained false)) with (i := 2)
              (l := RepConv (stem_args 8 false) 3 [2; 3] None);
      [vm_compute; repeat constructor|compute_done|
       vm_compute; reflexivity..].
  - eapply (transfer_pairs_layers_by_index small_backend (built false).1
              (trained false)) with (i := 1)
              (l := Plain "normalization" [0; 1]);
      [vm_compute; repeat constructor|compute_done|
       vm_compute; reflexivity..].
Defined.

(** The transfer from a model that is already reparameterized fails at
    the stem, on which fusion is refused, after the variables of the
    normalization have been copied into the model built by the call (its
    first variable, at position 10, holds the 42 of the source, not its
    initial 7).  The call stops there: the kernel of the stem of that
    model, at position 12, has its initial content; no model is returned,
    and the store that existed before the call is as it was. *)
Lemma failed_transfer_aborts_at_first_failure_witness :
  ∃ e σ',
    get_reparameterized_model small_backend (built true).1 (trained true)
    = (inl e, σ') ∧
    σ' !! 10 = Some ([3%Z], 42%Z) ∧
    σ' !! 12 = Some ([3; 3; 3; 8]%Z, 0%Z) ∧
    trained true `prefix_of` σ' ∧
    (∀ w v, trained true !! w = Some v → σ' !! w = Some v) ∧
    ∃ m σ1 i l t σ2,
      MobileOne_call small_backend (reparameterized_config (built true).1)
        (trained true) = (inr m, σ1) ∧
      m_layers (built true).1 !! i = Some l ∧ m_layers m !! i = Some t ∧
      transfer small_backend
        (zip (take i (m_layers (built true).1)) (take i (m_layers m))) σ1
      = (inr tt, σ2) ∧
      transfer_layer small_backend l t σ2 = (inl e, σ').
Proof.
  eexists _, _. split; [vm_compute; reflexivity|].
  split; [vm_compute; reflexivity|]. split; [vm_compute; reflexivity|].
  destruct (failed_transfer_aborts_at_first_failure small_backend
              (built true).1 (trained true))
    as (m & σ1 & Hcall & _ & _ & H).
  match goal with
  | |- _ `prefix_of` ?s ∧ _ =>
      destruct (H (LayerError "AlreadyFused") s) as [Hfail _]
  end.
  destruct Hfail
    as (Hp & Hfr & i & l & t & σ2 & Hl & Ht & Hpre & Hf & _);
    [vm_compute; reflexivity|].
  split; [exact Hp|]. split; [exact Hfr|].
  exists m, σ1, i, l, t, σ2. split_and!; assumption.
Defined.

Lemma reparameterized_model_leaves_source_witness :
  let res :=
    get_reparameterized_model small_backend (built false).1 (trained false) in
  trained false `prefix_of` res.2 ∧
  ∃ m', res.1 = inr m' ∧
        m_reparameterized m' = true ∧
        get_config m' = reparameterized_config (built false).1.
Proof.
  intros res.
  destruct (reparameterized_model_leaves_source small_backend
              (built false).1 (trained false) res.1 res.2) as (Hp & _ & Hm);
    [apply surjective_pairing|].
  split; [exact Hp|].
  assert (∃ m', res.1 = inr m') as [m' Hm']
    by (eexists; vm_compute; reflexivity).
  exists m'. split; [exact Hm'|].
  destruct (Hm m' Hm') as (_ & _ & _ & _ & Hrep & _ & _ & _ & _ & _ & Hcfg).
  split; [exact Hrep|]. apply Hcfg; [reflexivity|vm_compute; reflexivity].
Defined.

(** * Further properties of the code *)

From Stdlib Require Import Ascii.

(** ** Names and keys

    The names of the units (lines 85-86) and the keys of the features
    (line 115) are f-strings of integers separated by an underscore. *)

Definition unit_name (i : nat) (idx : Z) : string :=
  "stages_" +:+ pretty i +:+ "_" +:+ pretty idx.

Definition block_key (i : nat) (cur : Z) : string :=
  "BLOCK" +:+ pretty i +:+ "_S" +:+ pretty cur.

(** No character of [s] is an underscore. *)
Fixpoint no_sep (s : string) : Prop :=
  match s with
  | EmptyString => True
  | String c s' => c ≠ "_"%char ∧ no_sep s'
  end.

Lemma pretty_N_go_no_sep (x : N) s : no_sep s → no_sep (pretty_N_go x s).
Proof.
  revert s. induction (N.lt_wf_0 x) as [x _ IH]; intros s Hs.
  assert (x = 0 ∨ 0 < x)%N as [->|?] by lia.
  - by rewrite pretty_N_go_0.
  - rewrite pretty_N_go_step by done. apply IH.
    { by apply N.div_lt. }
    split; [|done]. unfold pretty_N_char. by repeat case_match.
Qed.

Lemma pretty_N_no_sep (x : N) : no_sep (pretty x).
Proof.
  unfold pretty, pretty_N. case_decide; [by split|].
  by apply pretty_N_go_no_sep.
Qed.

Lemma pretty_nat_no_sep (x : nat) : no_sep (pretty x).
Proof. apply pretty_N_no_sep. Qed.

Lemma pretty_Z_no_sep (x : Z) : no_sep (pretty x).
Proof.
  destruct x as [|p|p]; unfold pretty, pretty_Z.
  - by split.
  - apply pretty_N_no_sep.
  - split; [done|]. apply pretty_N_no_sep.
Qed.

(** Two strings without underscore, each followed by an underscore and a
    rest: equal wholes have equal parts. *)
Lemma sep_split d1 d2 r1 r2 :
  no_sep d1 → no_sep d2 →
  d1 +:+ String "_" r1 = d2 +:+ String "_" r2 → d1 = d2 ∧ r1 = r2.
Proof.
  revert d2. induction d1 as [|c1 d1 IH]; intros [|c2 d2] H1 H2 Heq;
    simpl in *.
  - by injection Heq as ->.
  - injection Heq as <- _. by destruct H2.
  - injection Heq as -> _. by destruct H1.
  - injection Heq as -> Heq. destruct H1 as [_ H1], H2 as [_ H2].
    destruct (IH d2 H1 H2 Heq) as [-> ->]. done.
Qed.

Lemma unit_name_inj i idx i' idx' :
  unit_name i idx = unit_name i' idx' → i = i' ∧ idx = idx'.
Proof.
  unfold unit_name. intros Heq. simpl in Heq. injection Heq as Heq.
  apply sep_split in Heq as [Hi Hidx]; [|apply pretty_nat_no_sep..].
  split; by apply (inj pretty).
Qed.

Lemma block_key_inj i cur i' cur' :
  block_key i cur = block_key i' cur' → i = i' ∧ cur = cur'.
Proof.
  unfold block_key. intros Heq. simpl in Heq. injection Heq as Heq.
  apply sep_split in Heq as [Hi Hcur]; [|apply pretty_nat_no_sep..].
  injection Hcur as Hcur. split; by apply (inj pretty).
Qed.

Lemma unit_name_not_stem i idx : unit_name i idx ≠ "stem".
Proof. unfold unit_name. simpl. discriminate. Qed.

Lemma block_key_not_stem i cur : block_key i cur ≠ "STEM_S2".
Proof. unfold block_key. simpl. discriminate. Qed.

Lemma block_units_name_in i c bs rep iters s idx cin x :
  x ∈ (λ u, name u.1) <$> block_units i c bs rep iters s idx cin →
  ∃ k, (idx ≤ k)%Z ∧ x = unit_name i k.
Proof.
  revert s idx cin. induction iters as [|iters IH]; intros s idx cin.
  - by intros ?%elem_of_nil.
  - cbn [block_units fmap list_fmap].
    intros [->|[->|Hx]%elem_of_cons]%elem_of_cons.
    + exists idx. split; [lia|done].
    + exists (idx + 1)%Z. split; [lia|done].
    + apply IH in Hx as (k & Hk & ->). exists k. split; [lia|done].
Qed.

Lemma block_units_names_NoDup i c bs rep iters s idx cin :
  NoDup ((λ u, name u.1) <$> block_units i c bs rep iters s idx cin).
Proof.
  revert s idx cin. induction iters as [|iters IH]; intros s idx cin;
    [constructor|].
  cbn [block_units fmap list_fmap]. apply NoDup_cons. split.
  - intros [Heq|Hx]%elem_of_cons.
    + apply (unit_name_inj i idx i (idx + 1)) in Heq as [_ Heq]. lia.
    + apply block_units_name_in in Hx as (k & Hk & Heq).
      apply (unit_name_inj i idx i k) in Heq as [_ ->]. lia.
  - apply NoDup_cons. split; [|apply IH].
    intros (k & Hk & Heq)%block_units_name_in.
    apply (unit_name_inj i (idx + 1) i k) in Heq as [_ <-]. lia.
Qed.

Lemma stage_units_name_in bs rep i cns cin x :
  x ∈ (λ u, name u.1) <$> stage_units bs rep i cns cin →
  ∃ i' k, i ≤ i' ∧ x = unit_name i' k.
Proof.
  revert i cin. induction cns as [|[c n] cns IH]; intros i cin.
  - by intros ?%elem_of_nil.
  - cbn [stage_units]. rewrite fmap_app.
    intros [Hx|Hx]%elem_of_app.
    + apply block_units_name_in in Hx as (k & _ & ->). by exists i, k.
    + apply IH in Hx as (i' & k & Hi & ->). exists i', k. split; [lia|done].
Qed.

Lemma stage_units_names_NoDup bs rep i cns cin :
  NoDup ((λ u, name u.1) <$> stage_units bs rep i cns cin).
Proof.
  revert i cin. induction cns as [|[c n] cns IH]; intros i cin;
    [constructor|].
  cbn [stage_units]. rewrite fmap_app. apply NoDup_app. split_and!.
  - apply block_units_names_NoDup.
  - intros x (k & _ & ->)%block_units_name_in
             (i' & k' & Hi & Heq)%stage_units_name_in.
    apply unit_name_inj in Heq as [-> _]. lia.
  - apply IH.
Qed.

Lemma dict_set_fresh {V} k (v : V) d :
  k ∉ d.*1 → dict_set k v d = d ++ [(k, v)].
Proof.
  induction d as [|[k' v'] d IH]; [done|].
  cbn [fmap list_fmap fst dict_set]. intros [Hne Hk]%not_elem_of_cons.
  destruct (String.eqb_spec k k') as [->|_]; [done|].
  cbn [app]. f_equal. by apply IH.
Qed.

(** The keys that [stage_features] adds to features whose keys are none
    of the stages from [i] on. *)
Lemma stage_features_keys i cns cur pos cin (fs : list (string * (nat * Z))) :
  Forall (λ k, ∀ i' cur', i ≤ i' → k ≠ block_key i' cur') fs.*1 →
  (stage_features i cns cur pos cin fs).*1
  = fs.*1 ++ imap (λ j _, block_key (i + j) (cur * 2 ^ (Z.of_nat j + 1))) cns.
Proof.
  revert i cur pos cin fs.
  induction cns as [|[c n] cns IH]; intros i cur pos cin fs Hfs.
  - cbn [stage_features imap]. by rewrite app_nil_r.
  - cbn [stage_features]. cbv zeta.
    change ("BLOCK" +:+ pretty i +:+ "_S" +:+ pretty (cur * 2)%Z)
      with (block_key i (cur * 2)).
    rewrite Forall_forall in Hfs.
    rewrite dict_set_fresh by (intros Hin; by eapply (Hfs _ Hin i)).
    rewrite IH.
    + rewrite fmap_app, <-app_assoc. f_equal.
      cbn [fmap list_fmap fst app]. rewrite imap_cons. f_equal.
      * by rewrite Nat.add_0_r.
      * apply imap_ext. intros j x _. cbn.
        f_equal; [lia|].
        replace (Z.of_nat (S j) + 1)%Z with (Z.succ (Z.of_nat j + 1)) by lia.
        rewrite Z.pow_succ_r by lia. lia.
    + rewrite fmap_app. apply Forall_app. split.
      * apply Forall_forall. intros k Hk i' cur' Hi. apply (Hfs _ Hk). lia.
      * constructor; [|constructor]. intros i' cur' Hi Heq.
        apply block_key_inj in Heq as [-> _]. lia.
Qed.

(** The product of the strides of a sequence of units: by how much they
    shrink the image together. *)
Definition stride_product (us : list (Conv2DArgs * Z)) : Z :=
  foldr (λ u acc, (strides u.1 * acc)%Z) 1%Z us.

(** The units that produce a recorded tensor. *)
Definition feature_units (x : KerasTensor) : list (Conv2DArgs * Z) :=
  units (kt_history x).

(** The features that the loop [stages] records, each with the units that
    produce it; [us] are the units built so far. *)
Fixpoint stage_feature_units (bs : Z) (rep : bool) (i : nat)
    (cns : list (Z * Z)) (cur : Z) (us : list (Conv2DArgs * Z)) (cin : Z)
    (fs : list (string * list (Conv2DArgs * Z)))
  : list (string * list (Conv2DArgs * Z)) :=
  match cns with
  | [] => fs
  | (c, n) :: cns' =>
      let cur' := (cur * 2)%Z in
      let us' := us ++ block_units i c bs rep (Z.to_nat n) 2 0 cin in
      stage_feature_units bs rep (S i) cns' cur' us'
        (block_out c (Z.to_nat n) cin)
        (dict_set ("BLOCK" +:+ pretty i +:+ "_S" +:+ pretty cur') us' fs)
  end.

(** The key of a feature tells the stride of the units that produce it. *)
Definition key_tells_stride (f : string * list (Conv2DArgs * Z)) : Prop :=
  (f.1 = "STEM_S2" ∧ stride_product f.2 = 2%Z) ∨
  ∃ i, f.1 = block_key i (stride_product f.2).

Lemma stride_product_app us1 us2 :
  stride_product (us1 ++ us2)
  = (stride_product us1 * stride_product us2)%Z.
Proof.
  unfold stride_product. induction us1 as [|u us1 IH]; cbn [foldr app].
  - lia.
  - rewrite IH. lia.
Qed.

Lemma block_units_stride_product i c bs rep iters s idx cin :
  (0 ≤ idx)%Z →
  stride_product (block_units i c bs rep iters s idx cin)
  = match iters with
    | O => 1%Z
    | S _ => if (idx =? 0)%Z then s else 1%Z
    end.
Proof.
  revert s idx cin. induction iters as [|iters IH]; intros s idx cin Hidx;
    [done|].
  cbn [block_units]. unfold stride_product in *. cbn [foldr fst strides
    depthwise_args pointwise_args].
  rewrite IH by lia.
  assert ((idx + 2 =? 0)%Z = false) as -> by (apply Z.eqb_neq; lia).
  destruct iters; lia.
Qed.

Lemma Forall_dict_set {V} (P : string * V → Prop) k v d :
  Forall P d → P (k, v) → Forall P (dict_set k v d).
Proof.
  intros Hd Hkv. induction Hd as [|[k' v'] d Hx Hd IH]; cbn [dict_set].
  - by constructor.
  - destruct (String.eqb k k'); by constructor.
Qed.

Lemma stage_feature_units_spec bs rep i cns cur us cin fs :
  Forall (λ cn, 0 < cn.2)%Z cns → stride_product us = cur →
  Forall (λ f, f.2 `prefix_of` us ∧ key_tells_stride f) fs →
  Forall (λ f, f.2 `prefix_of` us ++ stage_units bs rep i cns cin ∧
               key_tells_stride f)
         (stage_feature_units bs rep i cns cur us cin fs).
Proof.
  revert i cur us cin fs.
  induction cns as [|[c n] cns IH]; intros i cur us cin fs Hpos Hcur Hfs.
  - cbn [stage_feature_units stage_units]. by rewrite app_nil_r.
  - apply Forall_cons in Hpos as [Hn Hpos]. cbn [snd] in Hn.
    cbn [stage_feature_units stage_units]. cbv zeta. rewrite app_assoc.
    apply IH; [done| |].
    + rewrite stride_product_app, block_units_stride_product, Hcur by lia.
      destruct (Z.to_nat n) eqn:En; [lia|]. done.
    + apply Forall_dict_set.
      * eapply Forall_impl; [exact Hfs|]. intros f [Hp Hk]. split; [|done].
        by apply prefix_app_r.
      * split; [done|]. right. exists i. cbn [fst snd].
        rewrite stride_product_app, block_units_stride_product, Hcur by lia.
        destruct (Z.to_nat n) eqn:En; [lia|]. done.
Qed.

(** A call of the constructor that returns has passed the check of line
    32 and is the assembly. *)
Lemma MobileOne_init_returns (B : Backend) nb nc sc bs rep inp kw σ m
    (σ' : store B) :
  MobileOne_init B nb nc sc bs rep inp kw σ = (inr m, σ') →
  assemble B nb nc sc bs rep inp kw σ = (inr m, σ') ∧
  ∃ w, kw !! "weights" = Some w ∧ negb (is_none w) && rep = false.
Proof.
  unfold MobileOne_init. destruct (kw !! "weights") as [w|]; [|done].
  destruct (negb (is_none w) && rep) eqn:Hg; [done|]. eauto.
Qed.

Section Features.
Context (B : Backend).

Lemma wp_stages_units kw bs rep i cns cur x fs σ :
  wp B (stages B kw bs rep i cns cur x fs) σ
     (λ r σ',
        prod_map id feature_units <$> r.2
        = stage_feature_units bs rep i cns cur (units (kt_history x))
            (kt_channels x) (prod_map id feature_units <$> fs)).
Proof.
  revert i cur x fs σ. induction cns as [|[c n] cns IH]; intros i cur x fs σ.
  - by apply wp_ret.
  - cbn [stages]. eapply wp_bind; [apply wp_blocks|].
    intros x1 σ1 [Hg1 Hc1]. eapply wp_mono; [apply IH|].
    intros [x2 fs2] σ2 Hf2. cbn [fst snd stage_feature_units] in *.
    rewrite Hf2, dict_set_fmap.
    change (feature_units x1) with (units (kt_history x1)).
    by rewrite (grows_units _ _ _ _ _ _ Hg1), Hc1.
Qed.

Lemma wp_assemble_units nb nc sc bs rep inp kw σ :
  wp B (assemble B nb nc sc bs rep inp kw) σ
     (λ m σ',
        let stem := (stem_args sc rep, (input_layers B inp kw).2) in
        units (m_layers m) = stem :: stage_units bs rep 0 (zip nc nb) sc ∧
        prod_map id feature_units <$> m_features m
        = stage_feature_units bs rep 0 (zip nc nb) 2 [stem] sc
            [("STEM_S2", [stem])]).
Proof.
  unfold assemble.
  eapply wp_bind; [apply wp_plain_layers|]. intros x0 σ0 [Hg0 Hc0].
  eapply wp_bind; [apply wp_conv|]. intros x1 σ1 [Hg1 Hc1].
  eapply wp_bind with
    (R := λ r σ',
       grows B x1 σ1 r.1 σ' (stage_units bs rep 0 (zip nc nb) (kt_channels x1))
       ∧ prod_map id feature_units <$> r.2
         = stage_feature_units bs rep 0 (zip nc nb) 2 (units (kt_history x1))
             (kt_channels x1)
             (prod_map id feature_units <$> dict_set "STEM_S2" x1 [])).
  { pose proof (wp_stages B kw bs rep 0 (zip nc nb) 2 x1
                  (dict_set "STEM_S2" x1 []) σ1) as H1.
    pose proof (wp_stages_units kw bs rep 0 (zip nc nb) 2 x1
                  (dict_set "STEM_S2" x1 []) σ1) as H2.
    unfold wp in *. destruct (stages _ _ _ _ _ _ _ _ _ _) as [[e|r] σ'];
      [done|]. split; [apply H1|apply H2]. }
  intros [x2 fs2] σ2 [Hg2 Hf2].
  eapply wp_bind; [apply wp_plain_layers|]. intros x3 σ3 [Hg3 Hc3].
  apply wp_ret. cbn [m_layers m_features fst snd] in *.
  pose proof (grows_units _ _ _ _ _ _ Hg0) as Hu0.
  pose proof (grows_units _ _ _ _ _ _ Hg1) as Hu1.
  pose proof (grows_units _ _ _ _ _ _ Hg2) as Hu2.
  pose proof (grows_units _ _ _ _ _ _ Hg3) as Hu3.
  cbn [kt_history] in Hu0. change (units []) with (@nil (Conv2DArgs * Z)) in Hu0.
  rewrite app_nil_l in Hu0. rewrite Hu0, app_nil_l in Hu1.
  rewrite Hc0 in Hu1. rewrite Hc1 in Hu2. rewrite Hu1 in Hu2.
  rewrite app_nil_r in Hu3. split.
  - by rewrite Hu3, Hu2.
  - rewrite Hf2. cbn [dict_set fmap list_fmap prod_map fst snd].
    change (feature_units x1) with (units (kt_history x1)).
    rewrite Hu1, Hc1. done.
Qed.

(** The names of the units of a model that the constructor returns are
    pairwise distinct: "stem" and, for pair [j] of stage [i],
    "stages_i_2j" and "stages_i_(2j+1)". *)
Theorem unit_names_distinct nb nc sc bs rep inp kw σ m σ' :
  MobileOne_init B nb nc sc bs rep inp kw σ = (inr m, σ') →
  NoDup ((λ u, name u.1) <$> units (m_layers m)).
Proof.
  intros [Hrun _]%MobileOne_init_returns.
  destruct (assemble_run B nb nc sc bs rep inp kw σ)
    as (m1 & σ1 & Hr & _ & _ & Hu & _).
  rewrite Hr in Hrun. injection Hrun as <- <-.
  rewrite Hu. cbn [fmap list_fmap].
  apply NoDup_cons. split; [|apply stage_units_names_NoDup].
  intros (i' & k & _ & Heq)%stage_units_name_in.
  by apply (unit_name_not_stem i' k).
Qed.

(** For every request the keys of the features are STEM_S2 followed by one
    key per stage that [zip] forms, the key of stage [i] being BLOCKi_Sk
    with [k = 2^(i+2)]; they are pairwise distinct, so no feature
    overwrites another. *)
Theorem feature_keys_of_any_request nb nc sc bs rep inp kw σ :
  ∃ m σ', assemble B nb nc sc bs rep inp kw σ = (inr m, σ') ∧
    (m_features m).*1
    = "STEM_S2"
      :: imap (λ i _, block_key i (2 ^ (Z.of_nat i + 2))) (zip nc nb) ∧
    NoDup (m_features m).*1 ∧
    length (m_features m) = 1 + length nc `min` length nb.
Proof.
  destruct (assemble_run B nb nc sc bs rep inp kw σ)
    as (m & σ' & Hrun & _ & _ & _ & Hf & _).
  exists m, σ'. split; [done|].
  assert ((m_features m).*1
          = "STEM_S2"
            :: imap (λ i _, block_key i (2 ^ (Z.of_nat i + 2))) (zip nc nb))
    as Hkeys.
  { rewrite <-(fst_prod_map_id feature_mark), Hf, stage_features_keys.
    - cbn [fmap list_fmap fst app]. f_equal. apply imap_ext.
      intros j x _. cbn. f_equal.
      replace (Z.of_nat j + 2)%Z with (Z.succ (Z.of_nat j + 1)) by lia.
      rewrite Z.pow_succ_r by lia. lia.
    - constructor; [|constructor]. intros i' cur' _ Heq. symmetry in Heq.
      by apply block_key_not_stem in Heq. }
  split_and!; [done| |].
  - rewrite Hkeys. apply NoDup_cons. split.
    + intros (i & y & Heq & _)%elem_of_lookup_imap_1. symmetry in Heq.
      by apply block_key_not_stem in Heq.
    + apply NoDup_alt. intros i j k
        (y & _ & ->)%list_lookup_imap_Some (y' & _ & Heq)%list_lookup_imap_Some.
      by apply block_key_inj in Heq as [-> _].
  - rewrite <-(length_fmap fst), Hkeys. cbn [length].
    rewrite length_imap. by rewrite (length_zip_with pair nc nb).
Qed.

(** When every stage has at least one block, the number after "_S" in the
    key of a feature is the product of the strides of the units that
    produce the recorded tensor, and these units are the first units of
    the model. *)
Theorem feature_keys_tell_the_stride nb nc sc bs rep inp kw σ :
  Forall (λ cn, 0 < cn.2)%Z (zip nc nb) →
  ∃ m σ', assemble B nb nc sc bs rep inp kw σ = (inr m, σ') ∧
    ∀ k x, (k, x) ∈ m_features m →
      units (kt_history x) `prefix_of` units (m_layers m) ∧
      ((k = "STEM_S2" ∧ stride_product (units (kt_history x)) = 2%Z) ∨
       ∃ i, k = block_key i (stride_product (units (kt_history x)))).
Proof.
  intros Hpos.
  destruct (wp_run B _ _ _ (wp_assemble_units nb nc sc bs rep inp kw σ))
    as (m & σ' & Hrun & Hu & Hf).
  exists m, σ'. split; [done|]. intros k x Hin. cbv zeta in Hf.
  pose proof (stage_feature_units_spec bs rep 0 (zip nc nb) 2
                [(stem_args sc rep, (input_layers B inp kw).2)] sc
                [("STEM_S2", [(stem_args sc rep, (input_layers B inp kw).2)])]
                Hpos eq_refl) as Hall.
  cbn [app] in Hall. rewrite <-Hf, <-Hu in Hall.
  assert (Forall (λ f, f.2 `prefix_of` units (m_layers m) ∧ key_tells_stride f)
            (prod_map id feature_units <$> m_features m)) as Hall'.
  { apply Hall. constructor; [|constructor]. split; [done|]. by left. }
  rewrite Forall_forall in Hall'.
  apply (Hall' (k, feature_units x)).
  by apply (list_elem_of_fmap_2 (prod_map id feature_units) _ (k, x)).
Qed.

End Features.

(** ** The constructor and the configuration *)

(** [fix_config] (lines 142-151): the four keys are popped one after the
    other. *)
Definition unused_kwargs : list string :=
  ["num_blocks"; "num_channels"; "stem_channels"; "branch_size"].

Definition fix_config (config : gmap string pyval) : gmap string pyval :=
  foldl (λ c k, delete k c) config unused_kwargs.

(** The state of a layer agrees with the mode [rep] of its model. *)
Definition layer_in_mode (rep : bool) (l : Layer) : Prop :=
  match l with
  | RepConv a _ ws rc =>
      reparameterized a = rep ∧
      if rep then ∃ k b, ws = [k; b] ∧ rc = Some (k, b) else rc = None
  | Plain _ _ => True
  end.

Lemma fix_config_lookup config k :
  fix_config config !! k
  = if decide (k ∈ unused_kwargs) then None else config !! k.
Proof.
  unfold fix_config, unused_kwargs. cbn [foldl]. case_decide as Hk.
  - repeat (apply elem_of_cons in Hk as [->|Hk]);
      [by simplify_map_eq..|by apply not_elem_of_nil in Hk].
  - rewrite !not_elem_of_cons in Hk. destruct_and!.
    by rewrite !lookup_delete_ne by done.
Qed.

(** A configuration that holds the attributes of [m'] under the five keys
    of [get_config], whose other entries are the base configuration of
    [m'], is the configuration of [m']. *)
Lemma get_config_rebuilt (cfg : gmap string pyval) m' :
  cfg !! "num_blocks" = Some (PInts (m_num_blocks m')) →
  cfg !! "num_channels" = Some (PInts (m_num_channels m')) →
  cfg !! "stem_channels" = Some (PInt (m_stem_channels m')) →
  cfg !! "branch_size" = Some (PInt (m_branch_size m')) →
  cfg !! "reparameterized" = Some (PBool (m_reparameterized m')) →
  cfg !! "input_tensor" = None →
  m_base m' = kwargs_of cfg →
  get_config m' = cfg.
Proof.
  intros H1 H2 H3 H4 H5 H6 Hbase. apply map_eq. intros k.
  unfold get_config. rewrite Hbase.
  destruct (decide (k ∈ parameter_names)) as [Hk|Hk].
  - unfold parameter_names in Hk.
    repeat (apply elem_of_cons in Hk as [->|Hk]);
      [by simplify_map_eq..| |by apply not_elem_of_nil in Hk].
    rewrite !lookup_insert_ne by done. rewrite H6.
    unfold kwargs_of, parameter_names. cbn [foldr].
    rewrite !lookup_delete_ne by done. by rewrite lookup_delete_eq.
  - pose proof Hk as Hk'. unfold parameter_names in Hk'.
    rewrite !not_elem_of_cons in Hk'. destruct_and!.
    rewrite !lookup_insert_ne by done. by apply kwargs_of_lookup.
Qed.

Lemma elem_of_units a cin ws rc (ls : list Layer) :
  RepConv a cin ws rc ∈ ls → (a, cin) ∈ units ls.
Proof.
  intros Hin. apply list_elem_of_omap. by exists (RepConv a cin ws rc).
Qed.

Ltac lookup_config := unfold get_config; by simplify_map_eq.

Section Constructor.
Context (B : Backend).

Lemma assembled_layers_in_mode nb nc sc bs rep inp kw σ m σ' :
  assembled B nb nc sc bs rep inp kw σ m σ' →
  Forall (layer_in_mode rep) (m_layers m).
Proof.
  unfold assembled. intros (_ & Hwf & Hu & _).
  apply Forall_forall. intros l Hl.
  rewrite Forall_forall in Hwf. specialize (Hwf l Hl).
  destruct l as [a cin ws rc|nm ws]; [|done].
  assert (reparameterized a = rep) as Hrep.
  { apply elem_of_units in Hl. rewrite Hu in Hl.
    apply elem_of_cons in Hl as [[= -> ->]|Hl]; [done|].
    pose proof (stage_units_mode bs rep 0 (zip nc nb) sc) as Hm.
    rewrite Forall_forall in Hm. exact (Hm _ Hl). }
  split; [done|]. cbn [layer_wf] in Hwf. rewrite Hrep in Hwf.
  by destruct rep.
Qed.

(** The check of line 32 looks "weights" up in the keyword arguments
    before anything else: without that key the call raises [KeyError], in
    the training state as in the reparameterized state; with weights that
    are not [None] and [reparameterized=True] it raises the [ValueError]
    of lines 33-40.  Both leave the store as it was.  So a call that
    returns a model was given "weights", and given [None] unless the model
    is in the training state. *)
Theorem constructor_looks_up_weights_first nb nc sc bs rep inp kw σ :
  (kw !! "weights" = None →
   MobileOne_init B nb nc sc bs rep inp kw σ = (inl (KeyError "weights"), σ)) ∧
  (∀ w, kw !! "weights" = Some w → is_none w = false → rep = true →
        MobileOne_init B nb nc sc bs rep inp kw σ
        = (inl (ValueError_weights w), σ)) ∧
  (∀ m σ', MobileOne_init B nb nc sc bs rep inp kw σ = (inr m, σ') →
           ∃ w, kw !! "weights" = Some w ∧ (w = PNone ∨ rep = false)).
Proof.
  split_and!.
  - intros Hw. unfold MobileOne_init. by rewrite Hw.
  - intros w Hw Hn ->. unfold MobileOne_init. by rewrite Hw, Hn.
  - intros m σ' (_ & w & Hw & Hg)%MobileOne_init_returns. exists w.
    split; [done|]. destruct rep; [|by right]. left.
    rewrite andb_true_r in Hg. apply negb_false_iff in Hg. by destruct w.
Qed.

(** A model that the constructor returns owns exactly the variables
    allocated by the call: the store it found is kept, its layers hold
    the positions added, each position in one layer only, and every unit
    is in the state asked for (with exactly a kernel and a bias when
    reparameterized). *)
Theorem constructor_allocates_fresh_variables nb nc sc bs rep inp kw σ m σ' :
  MobileOne_init B nb nc sc bs rep inp kw σ = (inr m, σ') →
  σ `prefix_of` σ' ∧
  NoDup (concat (weights <$> m_layers m)) ∧
  (∀ w, w ∈ concat (weights <$> m_layers m) ↔ length σ ≤ w < length σ') ∧
  Forall (layer_in_mode rep) (m_layers m).
Proof.
  unfold MobileOne_init. destruct (kw !! "weights") as [w|]; [|done].
  destruct (negb (is_none w) && rep); [done|].
  destruct (assemble_run B nb nc sc bs rep inp kw σ)
    as (m1 & σ1 & -> & Hm). intros [= <- <-].
  pose proof (assembled_layers_in_mode _ _ _ _ _ _ _ _ _ _ Hm) as Hmode.
  destruct Hm as ((vals & -> & Hws) & _). split_and!; [|..|done].
  - by exists vals.
  - rewrite Hws. apply NoDup_seq.
  - intros l. rewrite Hws, elem_of_seq, length_app. lia.
Qed.

(** Line 157 never fails: whatever the source, the configuration it is
    given has the hyperparameters under their keys and "weights" set to
    [None], so a model is built, in the reparameterized state, and every
    unit of it has the kernel and the bias that the loop assigns to.
    [get_reparameterized_model] fails exactly when the loop fails. *)
Theorem reparameterized_target_is_always_built self σ :
  ∃ m σ1,
    MobileOne_call B (reparameterized_config self) σ = (inr m, σ1) ∧
    Forall (layer_in_mode true) (m_layers m) ∧
    get_reparameterized_model B self σ
    = (match (transfer B (zip (m_layers self) (m_layers m)) σ1).1 with
       | inl e => inl e
       | inr _ => inr m
       end,
       (transfer B (zip (m_layers self) (m_layers m)) σ1).2).
Proof.
  destruct (assemble_run B (m_num_blocks self) (m_num_channels self)
              (m_stem_channels self) (m_branch_size self) true
              (default PNone (m_base self !! "input_tensor"))
              (kwargs_of (reparameterized_config self)) σ)
    as (m & σ1 & Hrun & Hm).
  exists m, σ1. rewrite reparameterized_call. split_and!; [done| |].
  - by eapply assembled_layers_in_mode.
  - unfold get_reparameterized_model. cbv zeta.
    fold (reparameterized_config self).
    unfold mbind at 1, M_bind at 1. rewrite reparameterized_call, Hrun.
    unfold mbind, M_bind.
    by destruct (transfer _ _ _) as [[e|[]] σ2].
Qed.

(** The configuration that [get_config] returns is accepted by the
    constructor, which binds it back to the attributes of the model: the
    call never fails on a missing or ill-typed hyperparameter, and a model
    it returns has the hyperparameters of the first.  Where
    [BaseModel.get_config] returns the keyword arguments of the model,
    the rebuilt model has the configuration of the first. *)
Theorem config_round_trip self σ :
  MobileOne_call B (get_config self) σ
  = MobileOne_init B (m_num_blocks self) (m_num_channels self)
      (m_stem_channels self) (m_branch_size self) (m_reparameterized self)
      (default PNone (m_base self !! "input_tensor"))
      (kwargs_of (get_config self)) σ ∧
  (∀ k, k ∉ parameter_names → kwargs_of (get_config self) !! k = m_base self !! k) ∧
  ∀ m' σ', MobileOne_call B (get_config self) σ = (inr m', σ') →
    m_num_blocks m' = m_num_blocks self ∧
    m_num_channels m' = m_num_channels self ∧
    m_stem_channels m' = m_stem_channels self ∧
    m_branch_size m' = m_branch_size self ∧
    m_reparameterized m' = m_reparameterized self ∧
    ((∀ inp kw, base_config B inp kw = kw) →
     m_base self !! "input_tensor" = None →
     get_config m' = get_config self).
Proof.
  assert (MobileOne_call B (get_config self) σ
          = MobileOne_init B (m_num_blocks self) (m_num_channels self)
              (m_stem_channels self) (m_branch_size self)
              (m_reparameterized self)
              (default PNone (m_base self !! "input_tensor"))
              (kwargs_of (get_config self)) σ) as Hcall.
  { assert (get_config self !! "num_blocks"
            = Some (PInts (m_num_blocks self))) as H1 by lookup_config.
    assert (get_config self !! "num_channels"
            = Some (PInts (m_num_channels self))) as H2 by lookup_config.
    assert (get_config self !! "stem_channels"
            = Some (PInt (m_stem_channels self))) as H3 by lookup_config.
    assert (get_config self !! "branch_size"
            = Some (PInt (m_branch_size self))) as H4 by lookup_config.
    assert (get_config self !! "reparameterized"
            = Some (PBool (m_reparameterized self))) as H5 by lookup_config.
    assert (get_config self !! "input_tensor"
            = m_base self !! "input_tensor") as H6 by lookup_config.
    unfold MobileOne_call, required_ints, optional_int, optional_bool.
    by rewrite H1, H2, H3, H4, H5, H6. }
  split; [done|]. split.
  { intros k Hk. rewrite kwargs_of_lookup by done.
    unfold get_config, parameter_names in *.
    rewrite !not_elem_of_cons in Hk. destruct_and!.
    by rewrite !lookup_insert_ne by done. }
  intros m' σ' Hrun. rewrite Hcall in Hrun.
  unfold MobileOne_init in Hrun.
  destruct (kwargs_of (get_config self) !! "weights") as [w|]; [|done].
  destruct (negb (is_none w) && m_reparameterized self); [done|].
  destruct (assemble_run B (m_num_blocks self) (m_num_channels self)
              (m_stem_channels self) (m_branch_size self)
              (m_reparameterized self)
              (default PNone (m_base self !! "input_tensor"))
              (kwargs_of (get_config self)) σ)
    as (m1 & σ1 & Hrun1 & (_ & _ & _ & _ & H1 & H2 & H3 & H4 & H5 & H6)).
  rewrite Hrun1 in Hrun. injection Hrun as <- <-.
  split_and!; try done.
  intros Hbase Hinp. apply get_config_rebuilt;
    rewrite ?H1, ?H2, ?H3, ?H4, ?H5; try lookup_config.
  by rewrite H6, Hbase.
Qed.

End Constructor.

(** ** The named variants (lines 174-343) *)

(** A subclass of [MobileOneVariant] with its class attributes. *)
Record Variant := {
  class_name : string;
  v_num_blocks : list Z;
  v_num_channels : list Z;
  v_stem_channels : Z;
  v_branch_size : Z;
  available_weights : list (string * string * string)
}.

Definition default_origin : string :=
  "https://github.com/james77777778/keras-image-models/releases/download/0.1.2/".

Definition MobileOneS0 : Variant :=
  {| class_name := "MobileOneS0";
     v_num_blocks := [2; 8; 10; 1]%Z; v_num_channels := [48; 128; 256; 1024]%Z;
     v_stem_channels := 48; v_branch_size := 4;
     available_weights :=
       [("imagenet", default_origin,
         "mobileones0_mobileone_s0.apple_in1k.keras")] |}.

Definition MobileOneS1 : Variant :=
  {| class_name := "MobileOneS1";
     v_num_blocks := [2; 8; 10; 1]%Z; v_num_channels := [96; 192; 512; 1280]%Z;
     v_stem_channels := 64; v_branch_size := 1;
     available_weights :=
       [("imagenet", default_origin,
         "mobileones1_mobileone_s1.apple_in1k.keras")] |}.

Definition MobileOneS2 : Variant :=
  {| class_name := "MobileOneS2";
     v_num_blocks := [2; 8; 10; 1]%Z; v_num_channels := [96; 256; 640; 2048]%Z;
     v_stem_channels := 64; v_branch_size := 1;
     available_weights :=
       [("imagenet", default_origin,
         "mobileones2_mobileone_s2.apple_in1k.keras")] |}.

Definition MobileOneS3 : Variant :=
  {| class_name := "MobileOneS3";
     v_num_blocks := [2; 8; 10; 1]%Z; v_num_channels := [128; 320; 768; 2048]%Z;
     v_stem_channels := 64; v_branch_size := 1;
     available_weights :=
       [("imagenet", default_origin,
         "mobileones3_mobileone_s3.apple_in1k.keras")] |}.

(** The classes given to [add_model_to_registry] (lines 341-344). *)
Definition registered_variants : list Variant :=
  [MobileOneS0; MobileOneS1; MobileOneS2; MobileOneS3].

(** What [MobileOneVariant.__init__] raises: its own
    [NotImplementedError], or what [MobileOne.__init__] raises. *)
Inductive variant_exn :=
  | NotImplementedError (cls : string)
  | Raised (e : exn).

(** The truth value of a Python value, as [name or ...] tests it. *)
Definition truthy (v : pyval) : bool :=
  match v with
  | PNone => false
  | PBool b => b
  | PInt z => negb (z =? 0)%Z
  | PStr s => negb (String.eqb s "")
  | PInts zs => match zs with [] => false | _ => true end
  end.

(** The parameters of [MobileOneVariant.__init__] (lines 183-195). *)
Definition variant_parameter_names : list string :=
  ["reparameterized"; "input_tensor"; "input_shape";
   "include_preprocessing"; "include_top"; "pooling"; "dropout_rate";
   "classes"; "classifier_activation"; "weights"; "name";
   "feature_extractor"; "feature_keys"].

(** The keyword arguments of lines 255-265, each the argument of the call
    or the default of its parameter; [zero_rate] is the float [0.0] of
    line 189, which [pyval] does not represent. *)
Definition passed (zero_rate : pyval) (v : Variant)
    (args : gmap string pyval) : list (string * pyval) :=
  let arg k d := default d (args !! k) in
  [("input_shape", arg "input_shape" PNone);
   ("include_preprocessing", arg "include_preprocessing" (PBool true));
   ("include_top", arg "include_top" (PBool true));
   ("pooling", arg "pooling" PNone);
   ("dropout_rate", arg "dropout_rate" zero_rate);
   ("classes", arg "classes" (PInt 1000));
   ("classifier_activation", arg "classifier_activation" (PStr "softmax"));
   ("weights", arg "weights" (PStr "imagenet"));
   ("name", if truthy (arg "name" PNone) then arg "name" PNone
            else PStr (class_name v));
   ("feature_extractor", arg "feature_extractor" (PBool false));
   ("feature_keys", arg "feature_keys" PNone)].

(** The keyword arguments that reach [MobileOne.__init__]: the ones of
    lines 255-265 and those of the call that name no parameter, after
    [fix_config] (lines 247 and 266). *)
Definition variant_kwargs (zero_rate : pyval) (v : Variant)
    (args : gmap string pyval) : gmap string pyval :=
  list_to_map (passed zero_rate v args)
  ∪ fix_config (foldr delete args variant_parameter_names).

Section Variants.
Context (B : Backend) (zero_rate : pyval).

(** [MobileOneVariant.__init__] (lines 181-267), called on the class
    [cls] ([None] for [MobileOneVariant] itself) with the keyword
    arguments [args]; [reparameterized] is typed as a boolean, as in
    [MobileOne_call]. *)
Definition MobileOneVariant_init (cls : option Variant)
    (args : gmap string pyval) (σ : store B)
  : (variant_exn + Model) * store B :=
  match cls with
  | None => (inl (NotImplementedError "MobileOneVariant"), σ)
  | Some v =>
      match (rep ← optional_bool B args "reparameterized" false;
             MobileOne_init B (v_num_blocks v) (v_num_channels v)
               (v_stem_channels v) (v_branch_size v) rep
               (default PNone (args !! "input_tensor"))
               (variant_kwargs zero_rate v args)) σ with
      | (inl e, σ') => (inl (Raised e), σ')
      | (inr m, σ') => (inr m, σ')
      end
  end.

Lemma variant_kwargs_weights v args :
  variant_kwargs zero_rate v args !! "weights"
  = Some (default (PStr "imagenet") (args !! "weights")).
Proof.
  unfold variant_kwargs. apply lookup_union_Some_l.
  unfold passed. cbn [list_to_map foldr uncurry fst snd].
  by simplify_map_eq.
Qed.

Lemma passed_ext v args args' :
  (∀ k, k ∉ unused_kwargs → args !! k = args' !! k) →
  passed zero_rate v args = passed zero_rate v args'.
Proof.
  intros H. unfold passed. cbv zeta.
  by rewrite !H by (unfold unused_kwargs; compute_done).
Qed.

Lemma variant_kwargs_ext v args args' :
  (∀ k, k ∉ unused_kwargs → args !! k = args' !! k) →
  variant_kwargs zero_rate v args = variant_kwargs zero_rate v args'.
Proof.
  intros H. unfold variant_kwargs. rewrite (passed_ext v args args') by done.
  f_equal. apply map_eq. intros k. rewrite !fix_config_lookup.
  case_decide; [done|].
  destruct (decide (k ∈ variant_parameter_names)).
  - by rewrite !lookup_foldr_delete.
  - rewrite !lookup_foldr_delete_not_elem_of by done. by apply H.
Qed.

(** The two checks of the variant constructor come before anything is
    built and leave the store as it was.  The class [MobileOneVariant]
    itself raises [NotImplementedError], whatever the arguments.  A
    subclass passes "weights" on (line 262), "imagenet" unless given, so
    the lookup of line 32 finds it; asked for [reparameterized=True] it
    raises the [ValueError] of lines 33-40 unless the weights are
    [None]. *)
Theorem variant_checks_come_first args σ :
  MobileOneVariant_init None args σ
  = (inl (NotImplementedError "MobileOneVariant"), σ) ∧
  ∀ v,
    variant_kwargs zero_rate v args !! "weights"
    = Some (default (PStr "imagenet") (args !! "weights")) ∧
    (args !! "reparameterized" = Some (PBool true) →
     is_none (default (PStr "imagenet") (args !! "weights")) = false →
     MobileOneVariant_init (Some v) args σ
     = (inl (Raised (ValueError_weights
                       (default (PStr "imagenet") (args !! "weights")))), σ)).
Proof.
  split; [done|]. intros v. split; [apply variant_kwargs_weights|].
  intros Hrep Hn. unfold MobileOneVariant_init, optional_bool.
  rewrite Hrep. unfold mbind, M_bind, mret, M_ret, MobileOne_init, raise.
  by rewrite variant_kwargs_weights, Hn.
Qed.

(** A variant that is built in the reparameterized state was given
    [weights=None]: the default "imagenet" of the parameter does not do.
    The model is in the reparameterized state, and so is every unit of
    it. *)
Theorem reparameterized_variant_needs_weights_none v args σ m σ' :
  args !! "reparameterized" = Some (PBool true) →
  MobileOneVariant_init (Some v) args σ = (inr m, σ') →
  args !! "weights" = Some PNone ∧
  m_reparameterized m = true ∧
  Forall (layer_in_mode true) (m_layers m).
Proof.
  intros Hrep. unfold MobileOneVariant_init, optional_bool.
  rewrite Hrep. unfold mbind, M_bind, mret, M_ret.
  destruct (MobileOne_init B _ _ _ _ _ _ _ σ) as [[e|m0] σ0] eqn:Hinit;
    [done|].
  intros [= <- <-].
  apply MobileOne_init_returns in Hinit as (Hrun & w & Hw & Hg).
  rewrite variant_kwargs_weights in Hw. injection Hw as <-.
  rewrite andb_true_r in Hg. apply negb_false_iff in Hg.
  split; [by destruct (args !! "weights") as [[]|]|].
  destruct (assemble_run B (v_num_blocks v) (v_num_channels v)
              (v_stem_channels v) (v_branch_size v) true
              (default PNone (args !! "input_tensor"))
              (variant_kwargs zero_rate v args) σ)
    as (m1 & σ1 & Hr & Hm).
  rewrite Hr in Hrun. injection Hrun as <- <-. split.
  - by destruct Hm as (_ & _ & _ & _ & _ & _ & _ & _ & H5 & _).
  - by eapply assembled_layers_in_mode.
Qed.

(** Hyperparameters among the arguments of a variant have no effect:
    [fix_config] drops them, and the model has the hyperparameters of its
    class.  So a variant accepts the configuration that [get_config]
    returns, which carries them. *)
Theorem variant_ignores_hyperparameter_arguments cls args args' σ :
  (∀ k, k ∉ unused_kwargs → args !! k = args' !! k) →
  MobileOneVariant_init cls args σ = MobileOneVariant_init cls args' σ ∧
  ∀ v m σ', cls = Some v →
    MobileOneVariant_init cls args σ = (inr m, σ') →
    m_num_blocks m = v_num_blocks v ∧
    m_num_channels m = v_num_channels v ∧
    m_stem_channels m = v_stem_channels v ∧
    m_branch_size m = v_branch_size v.
Proof.
  intros H. split.
  - unfold MobileOneVariant_init, optional_bool. destruct cls as [v|]; [|done].
    rewrite (variant_kwargs_ext v args args') by done.
    by rewrite !H by (unfold unused_kwargs; compute_done).
  - intros v m σ' ->. unfold MobileOneVariant_init, optional_bool.
    unfold mbind, M_bind, mret, M_ret, raise.
    assert (∀ rep,
      match MobileOne_init B (v_num_blocks v) (v_num_channels v)
              (v_stem_channels v) (v_branch_size v) rep
              (default PNone (args !! "input_tensor"))
              (variant_kwargs zero_rate v args) σ with
      | (inl e0, σ0) => (inl (Raised e0), σ0)
      | (inr m0, σ0) => (inr m0, σ0)
      end = (inr m, σ') →
      m_num_blocks m = v_num_blocks v ∧
      m_num_channels m = v_num_channels v ∧
      m_stem_channels m = v_stem_channels v ∧
      m_branch_size m = v_branch_size v) as Hinit.
    { intros rep. unfold MobileOne_init, raise.
      destruct (_ !! "weights") as [w|]; [|done].
      destruct (negb (is_none w) && rep); [done|].
      destruct (assemble_run B (v_num_blocks v) (v_num_channels v)
                  (v_stem_channels v) (v_branch_size v) rep
                  (default PNone (args !! "input_tensor"))
                  (variant_kwargs zero_rate v args) σ)
        as (m1 & σ1 & Hr & (_ & _ & _ & _ & H1 & H2 & H3 & H4 & _)).
      rewrite Hr. by intros [= <- <-]. }
    destruct (args !! "reparameterized") as [[|b| | |]|]; try done;
      apply Hinit.
Qed.

(** Each registered variant records the features that the class
    announces in [available_feature_keys], and has 43 units: the stem and
    the 21 pairs of its four stages. *)
Theorem registered_variants_announce_their_features v args σ m σ' :
  v ∈ registered_variants →
  MobileOneVariant_init (Some v) args σ = (inr m, σ') →
  (m_features m).*1 = available_feature_keys ∧
  length (units (m_layers m)) = 43.
Proof.
  intros Hv. unfold MobileOneVariant_init, optional_bool.
  unfold mbind, M_bind, mret, M_ret, raise.
  assert (∀ rep,
    match MobileOne_init B (v_num_blocks v) (v_num_channels v)
            (v_stem_channels v) (v_branch_size v) rep
            (default PNone (args !! "input_tensor"))
            (variant_kwargs zero_rate v args) σ with
    | (inl e0, σ0) => (inl (Raised e0), σ0)
    | (inr m0, σ0) => (inr m0, σ0)
    end = (inr m, σ') →
    (m_features m).*1 = available_feature_keys ∧
    length (units (m_layers m)) = 43) as Hinit.
  { intros rep. unfold MobileOne_init, raise.
    destruct (_ !! "weights") as [w|]; [|done].
    destruct (negb (is_none w) && rep); [done|].
    destruct (assemble_run B (v_num_blocks v) (v_num_channels v)
                (v_stem_channels v) (v_branch_size v) rep
                (default PNone (args !! "input_tensor"))
                (variant_kwargs zero_rate v args) σ)
      as (m1 & σ1 & Hr & (_ & _ & Hu & Hf & _)).
    rewrite Hr. intros [= <- <-].
    rewrite <-(fst_prod_map_id feature_mark), Hf, Hu. cbn [length].
    rewrite stage_units_length. unfold registered_variants in Hv.
    repeat (apply elem_of_cons in Hv as [->|Hv]);
      [split; vm_compute; reflexivity..|by apply not_elem_of_nil in Hv]. }
  destruct (args !! "reparameterized") as [[|b| | |]|]; try done;
    apply Hinit.
Qed.

End Variants.

(** ** Rebuilding a variant from its configuration *)

Definition passed_names : list string :=
  ["input_shape"; "include_preprocessing"; "include_top"; "pooling";
   "dropout_rate"; "classes"; "classifier_activation"; "weights"; "name";
   "feature_extractor"; "feature_keys"].

Definition config_keys : list string :=
  ["num_blocks"; "num_channels"; "stem_channels"; "branch_size";
   "reparameterized"].

Lemma get_config_other m k :
  k ∉ config_keys → get_config m !! k = m_base m !! k.
Proof.
  unfold config_keys, get_config. rewrite !not_elem_of_cons. intros.
  destruct_and!. by rewrite !lookup_insert_ne by done.
Qed.

(** [fix_config] takes out of the configuration of a model the
    hyperparameters that [get_config] has put in, and nothing else: what
    remains is the base configuration without such keys, and the mode.
    Applying it twice is applying it once. *)
Theorem fix_config_of_get_config self :
  fix_config (get_config self)
  = <["reparameterized" := PBool (m_reparameterized self)]>
      (fix_config (m_base self)) ∧
  fix_config (fix_config (get_config self)) = fix_config (get_config self) ∧
  ∀ k, k ∈ unused_kwargs → fix_config (get_config self) !! k = None.
Proof.
  split_and!.
  - apply map_eq. intros k. rewrite fix_config_lookup.
    destruct (decide (k = "reparameterized")) as [->|Hne].
    { rewrite decide_False by (unfold unused_kwargs; compute_done).
      unfold get_config. by simplify_map_eq. }
    rewrite lookup_insert_ne by done. rewrite fix_config_lookup.
    case_decide as Hk; [done|]. apply get_config_other. intros Hin.
    assert (Forall (λ k, k ∈ unused_kwargs ∨ k = "reparameterized")
              config_keys) as HF by compute_done.
    rewrite Forall_forall in HF. by destruct (HF k Hin).
  - apply map_eq. intros k. rewrite !fix_config_lookup. by case_decide.
  - intros k Hk. rewrite fix_config_lookup. by rewrite decide_True.
Qed.

Section VariantRoundTrip.
Context (B : Backend) (zero_rate : pyval).

Lemma variant_kwargs_passed v args k x :
  (k, x) ∈ passed zero_rate v args →
  variant_kwargs zero_rate v args !! k = Some x.
Proof.
  intros Hin. unfold variant_kwargs.
  apply lookup_union_Some_l, elem_of_list_to_map_1; [|done].
  change ((passed zero_rate v args).*1) with passed_names. compute_done.
Qed.

Lemma variant_kwargs_other v args k :
  k ∉ passed_names →
  variant_kwargs zero_rate v args !! k
  = fix_config (foldr delete args variant_parameter_names) !! k.
Proof.
  intros Hk. unfold variant_kwargs.
  apply lookup_union_r, not_elem_of_list_to_map_1. exact Hk.
Qed.

(** What a successful call of the variant constructor has decided. *)
Lemma variant_success v args σ m σ' :
  MobileOneVariant_init B zero_rate (Some v) args σ = (inr m, σ') →
  optional_bool B args "reparameterized" false
  = mret (m_reparameterized m) ∧
  m_base m = base_config B (default PNone (args !! "input_tensor"))
               (variant_kwargs zero_rate v args).
Proof.
  unfold MobileOneVariant_init, optional_bool.
  unfold mbind, M_bind, mret, M_ret, raise.
  assert (∀ rep,
    match MobileOne_init B (v_num_blocks v) (v_num_channels v)
            (v_stem_channels v) (v_branch_size v) rep
            (default PNone (args !! "input_tensor"))
            (variant_kwargs zero_rate v args) σ with
    | (inl e0, σ0) => (inl (Raised e0), σ0)
    | (inr m0, σ0) => (inr m0, σ0)
    end = (inr m, σ') →
    rep = m_reparameterized m ∧
    m_base m = base_config B (default PNone (args !! "input_tensor"))
                 (variant_kwargs zero_rate v args)) as Hinit.
  { intros rep. unfold MobileOne_init, raise.
    destruct (_ !! "weights") as [w|]; [|done].
    destruct (negb (is_none w) && rep); [done|].
    destruct (assemble_run B (v_num_blocks v) (v_num_channels v)
                (v_stem_channels v) (v_branch_size v) rep
                (default PNone (args !! "input_tensor"))
                (variant_kwargs zero_rate v args) σ)
      as (m1 & σ1 & Hr & (_ & _ & _ & _ & _ & _ & _ & _ & H5 & H6)).
    rewrite Hr. by intros [= <- <-]. }
  destruct (args !! "reparameterized") as [[|b| | |]|]; try done;
    intros [-> Hb]%Hinit; done.
Qed.

Ltac in_passed :=
  unfold passed; cbv zeta;
  repeat (apply elem_of_cons; first [left; reflexivity|right]).

(** Where [BaseModel.get_config] returns the keyword arguments of the
    model, a variant built without an input tensor is rebuilt by its own
    configuration: calling the class on [get_config] of the model is the
    same call as the one that built it. *)
Theorem variant_config_round_trip v args σ m σ' :
  (∀ inp kw, base_config B inp kw = kw) →
  default PNone (args !! "input_tensor") = PNone →
  MobileOneVariant_init B zero_rate (Some v) args σ = (inr m, σ') →
  ∀ σ2, MobileOneVariant_init B zero_rate (Some v) (get_config m) σ2
        = MobileOneVariant_init B zero_rate (Some v) args σ2.
Proof.
  intros Hbase Hinp [Hrep Hm]%variant_success σ2. rewrite Hbase in Hm.
  assert (∀ k x, (k, x) ∈ passed zero_rate v args →
                 get_config m !! k = Some x) as Hcfg.
  { intros k x Hin. rewrite get_config_other, Hm.
    - by apply variant_kwargs_passed.
    - assert (k ∈ passed_names) as Hk
        by (by apply (list_elem_of_fmap_2 fst _ (k, x)) in Hin).
      clear Hin. revert k Hk. apply Forall_forall. compute_done. }
  assert (variant_kwargs zero_rate v (get_config m)
          = variant_kwargs zero_rate v args) as Hkw.
  { unfold variant_kwargs.
    assert (passed zero_rate v (get_config m) = passed zero_rate v args
            ∧ fix_config (foldr delete (get_config m)
                            variant_parameter_names)
              = fix_config (foldr delete args variant_parameter_names))
      as [-> ->]; [split|done].
    - unfold passed at 1. cbv zeta.
      rewrite (Hcfg "input_shape" _ ltac:(in_passed)),
        (Hcfg "include_preprocessing" _ ltac:(in_passed)),
        (Hcfg "include_top" _ ltac:(in_passed)),
        (Hcfg "pooling" _ ltac:(in_passed)),
        (Hcfg "dropout_rate" _ ltac:(in_passed)),
        (Hcfg "classes" _ ltac:(in_passed)),
        (Hcfg "classifier_activation" _ ltac:(in_passed)),
        (Hcfg "weights" _ ltac:(in_passed)),
        (Hcfg "name" _ ltac:(in_passed)),
        (Hcfg "feature_extractor" _ ltac:(in_passed)),
        (Hcfg "feature_keys" _ ltac:(in_passed)).
      unfold passed. cbn [default from_option id]. do 8 f_equal.
      destruct (truthy (default PNone (args !! "name"))) eqn:Ht.
      + cbn [default from_option id] in Ht. by rewrite Ht.
      + by destruct (truthy (PStr (class_name v))).
    - apply map_eq. intros k. rewrite !fix_config_lookup.
      case_decide as Hk; [done|].
      destruct (decide (k ∈ variant_parameter_names)) as [Hv|Hv].
      { by rewrite !lookup_foldr_delete. }
      rewrite !lookup_foldr_delete_not_elem_of by done.
      assert ((k ∉ config_keys) ∧ (k ∉ passed_names)) as [Hc Hp].
      { assert (Forall (λ k, (k ∈ unused_kwargs)
                             ∨ (k ∈ variant_parameter_names))
                  (config_keys ++ passed_names)) as HF by compute_done.
        rewrite Forall_forall in HF.
        split; intros Hin; destruct (HF k); try done;
          apply elem_of_app; first [by left|by right]. }
      rewrite get_config_other, Hm, variant_kwargs_other by done.
      rewrite fix_config_lookup, decide_False by done.
      by rewrite lookup_foldr_delete_not_elem_of. }
  assert (get_config m !! "input_tensor" = None) as Hit.
  { rewrite get_config_other, Hm, variant_kwargs_other by compute_done.
    rewrite fix_config_lookup, decide_False by compute_done.
    apply lookup_foldr_delete. compute_done. }
  assert (optional_bool B (get_config m) "reparameterized" false
          = mret (m_reparameterized m)) as Hrep'.
  { unfold optional_bool.
    assert (get_config m !! "reparameterized"
            = Some (PBool (m_reparameterized m))) as ->
      by (unfold get_config; by simplify_map_eq).
    done. }
  unfold MobileOneVariant_init. by rewrite Hrep, Hrep', Hkw, Hit, Hinp.
Qed.

End VariantRoundTrip.

(** ** Concrete requests, further *)

(** The keyword arguments of a variant asked for without pretrained
    weights, and the same with a hyperparameter among them. *)
Definition variant_args : gmap string pyval := {["weights" := PNone]}.

Definition variant_args_with_blocks : gmap string pyval :=
  <["num_blocks" := PInts [1%Z]]> variant_args.

Definition variant_args_reparameterized : gmap string pyval :=
  <["reparameterized" := PBool true]> variant_args.

(** [MobileOneS0] built on the small backend in the empty store. *)
Definition built_S0 : (variant_exn + Model) * store small_backend :=
  MobileOneVariant_init small_backend (PInt 0) (Some MobileOneS0)
    variant_args [].

Lemma built_S0_run : ∃ m σ', built_S0 = (inr m, σ').
Proof. eexists _, _. vm_compute. reflexivity. Qed.

(** A stage of no block records the output of the stem, of stride 2,
    under a key that announces the stride 4: a key tells the stride only
    where every stage has a block. *)
Example stage_without_blocks :
  ∃ m σ' x,
    assemble small_backend [0%Z] [8%Z] 8 1 false PNone small_kwargs []
    = (inr m, σ') ∧
    m_features m = [("STEM_S2", x); ("BLOCK0_S4", x)] ∧
    stride_product (units (kt_history x)) = 2%Z.
Proof. eexists _, _, _. split_and!; vm_compute; reflexivity. Qed.

Lemma feature_keys_tell_the_stride_witness :
  Forall (λ cn : Z * Z, 0 < cn.2)%Z (zip [8%Z] [1%Z]) ∧
  ∃ m σ',
    assemble small_backend [1%Z] [8%Z] 8 1 false PNone small_kwargs []
    = (inr m, σ') ∧
    ∀ k x, (k, x) ∈ m_features m →
      units (kt_history x) `prefix_of` units (m_layers m) ∧
      ((k = "STEM_S2" ∧ stride_product (units (kt_history x)) = 2%Z) ∨
       ∃ i, k = block_key i (stride_product (units (kt_history x)))).
Proof.
  assert (Forall (λ cn : Z * Z, 0 < cn.2)%Z (zip [8%Z] [1%Z])) as H
    by (repeat constructor).
  split; [exact H|].
  exact (feature_keys_tell_the_stride small_backend [1%Z] [8%Z] 8 1 false
           PNone small_kwargs [] H).
Defined.

Lemma unit_names_distinct_witness :
  NoDup ((λ u, name u.1) <$> units (m_layers (built false).1)).
Proof.
  apply (unit_names_distinct small_backend [1%Z] [8%Z] 8 1 false PNone
           small_kwargs [] (built false).1 (built false).2).
  vm_compute; reflexivity.
Defined.

(** Without "weights" the call fails with [KeyError] in the training
    state too. *)
Lemma constructor_looks_up_weights_first_witness :
  (∅ : gmap string pyval) !! "weights" = None ∧
  MobileOne_init small_backend [1%Z] [8%Z] 8 1 false PNone ∅ (trained false)
  = (inl (KeyError "weights"), trained false).
Proof.
  assert ((∅ : gmap string pyval) !! "weights" = None) as H by reflexivity.
  split; [exact H|].
  exact (proj1 (constructor_looks_up_weights_first small_backend [1%Z]
                  [8%Z] 8 1 false PNone ∅ (trained false)) H).
Defined.

Lemma constructor_allocates_fresh_variables_witness :
  ∃ m σ',
    MobileOne_init small_backend [1%Z] [8%Z] 8 1 true PNone small_kwargs
      (trained false) = (inr m, σ') ∧
    length σ' = 20 ∧
    trained false `prefix_of` σ' ∧
    NoDup (concat (weights <$> m_layers m)) ∧
    (∀ w, w ∈ concat (weights <$> m_layers m)
          ↔ length (trained false) ≤ w < length σ') ∧
    Forall (layer_in_mode true) (m_layers m).
Proof.
  eexists _, _. split; [vm_compute; reflexivity|].
  split; [vm_compute; reflexivity|].
  apply (constructor_allocates_fresh_variables small_backend [1%Z] [8%Z] 8
           1 true PNone small_kwargs (trained false)).
  vm_compute; reflexivity.
Defined.

(** [MobileOneS0(reparameterized=True)]: the default weights are
    refused. *)
Lemma variant_checks_come_first_witness :
  ({["reparameterized" := PBool true]} : gmap string pyval)
    !! "reparameterized" = Some (PBool true) ∧
  MobileOneVariant_init small_backend (PInt 0) (Some MobileOneS0)
    {["reparameterized" := PBool true]} (trained false)
  = (inl (Raised (ValueError_weights (PStr "imagenet"))), trained false).
Proof.
  assert (({["reparameterized" := PBool true]} : gmap string pyval)
            !! "reparameterized" = Some (PBool true)) as H
    by reflexivity.
  split; [exact H|].
  exact (proj2 (proj2 (variant_checks_come_first small_backend (PInt 0)
                         {["reparameterized" := PBool true]}
                         (trained false)) MobileOneS0) H eq_refl).
Defined.

(** [MobileOneS0(reparameterized=True, weights=None)] built on the small
    backend in the empty store. *)
Lemma built_S0_reparameterized_run :
  ∃ m σ',
    MobileOneVariant_init small_backend (PInt 0) (Some MobileOneS0)
      variant_args_reparameterized [] = (inr m, σ').
Proof. eexists _, _. vm_compute. reflexivity. Qed.

Lemma reparameterized_variant_needs_weights_none_witness :
  variant_args_reparameterized !! "reparameterized" = Some (PBool true) ∧
  ∃ m σ',
    MobileOneVariant_init small_backend (PInt 0) (Some MobileOneS0)
      variant_args_reparameterized [] = (inr m, σ') ∧
    variant_args_reparameterized !! "weights" = Some PNone ∧
    m_reparameterized m = true ∧
    Forall (layer_in_mode true) (m_layers m).
Proof.
  assert (variant_args_reparameterized !! "reparameterized"
          = Some (PBool true)) as H by (vm_compute; reflexivity).
  split; [exact H|].
  destruct built_S0_reparameterized_run as (m & σ' & Hrun).
  exists m, σ'. split; [exact Hrun|].
  exact (reparameterized_variant_needs_weights_none small_backend (PInt 0)
           MobileOneS0 variant_args_reparameterized [] m σ' H Hrun).
Defined.

Lemma variant_args_agree k :
  k ∉ unused_kwargs → variant_args_with_blocks !! k = variant_args !! k.
Proof.
  intros Hk. apply lookup_insert_ne. intros <-. apply Hk. compute_done.
Defined.

Lemma variant_ignores_hyperparameter_arguments_witness :
  variant_args_with_blocks !! "num_blocks" = Some (PInts [1%Z]) ∧
  MobileOneVariant_init small_backend (PInt 0) (Some MobileOneS0)
    variant_args_with_blocks []
  = MobileOneVariant_init small_backend (PInt 0) (Some MobileOneS0)
      variant_args [] ∧
  ∀ v m σ', Some MobileOneS0 = Some v →
    MobileOneVariant_init small_backend (PInt 0) (Some MobileOneS0)
      variant_args_with_blocks [] = (inr m, σ') →
    m_num_blocks m = v_num_blocks v ∧
    m_num_channels m = v_num_channels v ∧
    m_stem_channels m = v_stem_channels v ∧
    m_branch_size m = v_branch_size v.
Proof.
  split; [vm_compute; reflexivity|].
  exact (variant_ignores_hyperparameter_arguments small_backend (PInt 0)
           (Some MobileOneS0) variant_args_with_blocks variant_args []
           variant_args_agree).
Defined.

Lemma registered_variants_announce_their_features_witness :
  MobileOneS0 ∈ registered_variants ∧
  ∃ m σ', built_S0 = (inr m, σ') ∧
    (m_features m).*1 = available_feature_keys ∧
    length (units (m_layers m)) = 43.
Proof.
  assert (MobileOneS0 ∈ registered_variants) as Hv by (by left).
  split; [exact Hv|]. destruct built_S0_run as (m & σ' & Hrun).
  exists m, σ'. split; [exact Hrun|].
  exact (registered_variants_announce_their_features small_backend (PInt 0)
           MobileOneS0 variant_args [] m σ' Hv Hrun).
Defined.

Lemma variant_config_round_trip_witness :
  ∃ m σ', built_S0 = (inr m, σ') ∧
    ∀ σ2,
      MobileOneVariant_init small_backend (PInt 0) (Some MobileOneS0)
        (get_config m) σ2
      = MobileOneVariant_init small_backend (PInt 0) (Some MobileOneS0)
          variant_args σ2.
Proof.
  destruct built_S0_run as (m & σ' & Hrun).
  exists m, σ'. split; [exact Hrun|].
  exact (variant_config_round_trip small_backend (PInt 0) MobileOneS0
           variant_args [] m σ' (λ _ _, eq_refl) eq_refl Hrun).
Defined.

(** ** The reparameterized model of a model that the constructor built *)

Section Reparameterized.
Context (B : Backend).

(** The model that [get_reparameterized_model] returns for a model built
    by the constructor has the units of its source, in the same order and
    with the mode flag set: names, filters, kernel sizes, strides, skip
    and scale flags and branch sizes agree, and behind the stem the input
    channels too.  Its features have the keys of the source, taken behind
    the same number of units and with the same channel counts. *)
Theorem reparameterized_model_keeps_the_units nb nc sc bs rep inp kw σ0 self σ1 σ m' σ' :
  MobileOne_init B nb nc sc bs rep inp kw σ0 = (inr self, σ1) →
  get_reparameterized_model B self σ = (inr m', σ') →
  (units (m_layers m')).*1 = set_mode true <$> (units (m_layers self)).*1 ∧
  tail (units (m_layers m'))
  = prod_map (set_mode true) id <$> tail (units (m_layers self)) ∧
  prod_map id feature_mark <$> m_features m'
  = prod_map id feature_mark <$> m_features self.
Proof.
  intros Hinit Hrun.
  assert (assembled B nb nc sc bs rep inp kw σ0 self σ1) as Hs.
  { unfold MobileOne_init in Hinit.
    destruct (kw !! "weights") as [w|]; [|done].
    destruct (negb (is_none w) && rep); [done|].
    destruct (assemble_run B nb nc sc bs rep inp kw σ0)
      as (m1 & σ1' & Hr & Hm).
    rewrite Hr in Hinit. by injection Hinit as <- <-. }
  apply get_reparameterized_model_run in Hrun
    as (m & σ2 & r2 & _ & Hm & _ & Hr).
  destruct r2 as [e|u]; [done|]. injection Hr as ->.
  destruct Hs as (_ & _ & Hu & Hf & H1 & H2 & H3 & H4 & _).
  destruct Hm as (_ & _ & Hu' & Hf' & _).
  rewrite H1, H2, H3, H4 in Hu'. rewrite H1, H2, H3 in Hf'.
  rewrite Hu, Hu', Hf, Hf'.
  cbn [tail]. split_and!; [|by rewrite stage_units_set_mode|done].
  rewrite <-(stage_units_set_mode true bs rep).
  rewrite !fmap_cons. f_equal.
  rewrite <-!list_fmap_compose. apply list_fmap_ext. by intros ? [].
Qed.

End Reparameterized.

Lemma reparameterized_model_keeps_the_units_witness :
  ∃ m' σ',
    get_reparameterized_model small_backend (built false).1 (trained false)
    = (inr m', σ') ∧
    (units (m_layers m')).*1
    = set_mode true <$> (units (m_layers (built false).1)).*1 ∧
    tail (units (m_layers m'))
    = prod_map (set_mode true) id <$> tail (units (m_layers (built false).1)) ∧
    prod_map id feature_mark <$> m_features m'
    = prod_map id feature_mark <$> m_features (built false).1.
Proof.
  assert (∃ m' σ',
            get_reparameterized_model small_backend (built false).1
              (trained false) = (inr m', σ')) as (m' & σ' & Hrun)
    by (eexists _, _; vm_compute; reflexivity).
  exists m', σ'. split; [exact Hrun|].
  apply (reparameterized_model_keeps_the_units small_backend [1%Z] [8%Z] 8
           1 false PNone small_kwargs [] (built false).1 (built false).2
           (trained false) m' σ'); [vm_compute; reflexivity|exact Hrun].
Defined.
